(** * LinkedIn Ads analytics helpers: a shallow embedding

    Source: [source_linkedin_ads/analytics.py].  The five functions of the
    module are embedded below, with the lines of the source they follow:

    - [chunk_analytics_fields]   (field chunker)
    - [make_date_slices]         (date windower)
    - [make_analytics_slices]    (slice builder)
    - [update_analytics_params]  (parameter flattener)
    - [merge_chunks]             (result merger)

    Python exceptions are carried by [result]; the [while] loop of the
    windower runs on fuel, so that a run that never leaves the loop is
    distinguished from one that returns or raises. *)

From Stdlib Require Import ZArith List String Ascii Bool Lia.
Import ListNotations.
Local Open Scope string_scope.
Local Open Scope list_scope.
Local Open Scope Z_scope.
Set Warnings "-register-all".

(** ** Python values, exceptions and dictionaries *)

(** The exceptions the module can let escape. *)
Inductive exn : Type :=
| KeyError (key : string)
| TypeError
| ValueError
| OverflowError
| ParserError.

Inductive result (A : Type) : Type :=
| Ok (a : A)
| Raise (e : exn).
Arguments Ok {A} a.
Arguments Raise {A} e.

Definition bind {A B : Type} (r : result A) (k : A -> result B) : result B :=
  match r with
  | Ok a => k a
  | Raise e => Raise e
  end.

Notation "x <- r ;; k" := (bind r (fun x => k))
  (at level 61, r at next level, right associativity).

(** A [for] loop that an exception raised by its body leaves at once. *)
Fixpoint for_each {S A : Type} (body : S -> A -> result S) (xs : list A) (s : S)
  : result S :=
  match xs with
  | [] => Ok s
  | x :: rest => s' <- body s x ;; for_each body rest s'
  end.

(** JSON-like values: scalars and nested containers.  A dictionary is kept
    as an association list in insertion order, as Python dictionaries
    iterate. *)
Inductive value : Type :=
| VNone
| VBool (b : bool)
| VInt (z : Z)
| VStr (s : string)
| VList (items : list value)
| VDict (entries : list (string * value)).

Definition pydict : Type := list (string * value).

(** [d[k]] as an optional value: the first binding of [k]. *)
Fixpoint dict_get (d : pydict) (k : string) : option value :=
  match d with
  | [] => None
  | (k', v) :: rest => if String.eqb k' k then Some v else dict_get rest k
  end.

(** [d[k]], raising [KeyError] when the key is missing. *)
Definition dict_item (d : pydict) (k : string) : result value :=
  match dict_get d k with
  | Some v => Ok v
  | None => Raise (KeyError k)
  end.

(** [v[k]] on an arbitrary value: only dictionaries take a string
    subscript, everything else raises [TypeError]. *)
Definition subscript (v : value) (k : string) : result value :=
  match v with
  | VDict d => dict_item d k
  | _ => Raise TypeError
  end.

(** [d[k] = v]: an existing key keeps its position, a new key goes last. *)
Fixpoint dict_set (d : pydict) (k : string) (v : value) : pydict :=
  match d with
  | [] => [(k, v)]
  | (k', v') :: rest =>
      if String.eqb k' k then (k', v) :: rest else (k', v') :: dict_set rest k v
  end.

(** [d.update(other)]: the bindings of [other], in its order. *)
Definition dict_update (d other : pydict) : pydict :=
  fold_left (fun acc kv => dict_set acc (fst kv) (snd kv)) other d.

(** Hashable values as dictionary keys.  Python identifies [True] with [1]
    and [False] with [0]; lists and dictionaries are unhashable. *)
Inductive hkey : Type :=
| KNone
| KInt (z : Z)
| KStr (s : string).

Definition hkey_eqb (a b : hkey) : bool :=
  match a, b with
  | KNone, KNone => true
  | KInt x, KInt y => Z.eqb x y
  | KStr x, KStr y => String.eqb x y
  | _, _ => false
  end.

Definition hash_key (v : value) : result hkey :=
  match v with
  | VNone => Ok KNone
  | VBool b => Ok (KInt (if b then 1 else 0))
  | VInt z => Ok (KInt z)
  | VStr s => Ok (KStr s)
  | VList _ | VDict _ => Raise TypeError
  end.

(** ** Lists: [in], [range] and slicing *)

(** [x in xs] on a list of strings. *)
Fixpoint str_in (x : string) (xs : list string) : bool :=
  match xs with
  | [] => false
  | y :: rest => String.eqb y x || str_in x rest
  end.

(** [range(start, stop, step)]; a zero step raises [ValueError].  The
    number of items is computed as CPython's [range] does: on the bounds
    as given for a positive step, on the mirrored bounds for a negative
    one. *)
Definition range_length (lo hi step : Z) : nat :=
  if hi <=? lo then O else Z.to_nat ((hi - lo - 1) / step + 1).

Definition py_range (start stop step : Z) : result (list Z) :=
  if step =? 0 then Raise ValueError
  else
    let n := if 0 <? step then range_length start stop step
             else range_length stop start (- step) in
    Ok (map (fun i => start + Z.of_nat i * step) (seq 0 n)).

(** [xs[lo:hi]] for [0 <= lo]: bounds past the end are clamped. *)
Definition py_slice {A : Type} (xs : list A) (lo hi : Z) : list A :=
  firstn (Z.to_nat (hi - lo)) (skipn (Z.to_nat lo) xs).

(** ** Field chunker *)

Definition FIELDS_CHUNK_SIZE : Z := 17.
Definition WINDOW_IN_DAYS : Z := 30.

Definition ANALYTICS_FIELDS_V2 : list string :=
  [ "actionClicks"; "adUnitClicks"; "approximateUniqueImpressions";
    "cardClicks"; "cardImpressions"; "clicks"; "commentLikes"; "comments";
    "companyPageClicks"; "conversionValueInLocalCurrency";
    "costInLocalCurrency"; "costInUsd"; "dateRange";
    "externalWebsiteConversions"; "externalWebsitePostClickConversions";
    "externalWebsitePostViewConversions"; "follows"; "fullScreenPlays";
    "impressions"; "landingPageClicks";
    "leadGenerationMailContactInfoShares";
    "leadGenerationMailInterestedClicks"; "likes"; "oneClickLeadFormOpens";
    "oneClickLeads"; "opens"; "otherEngagements"; "pivot"; "pivotValue";
    "pivotValues"; "reactions"; "sends"; "shares"; "textUrlClicks";
    "totalEngagements"; "videoCompletions";
    "videoFirstQuartileCompletions"; "videoMidpointCompletions";
    "videoStarts"; "videoThirdQuartileCompletions"; "videoViews";
    "viralCardClicks"; "viralCardImpressions"; "viralClicks";
    "viralCommentLikes"; "viralComments"; "viralCompanyPageClicks";
    "viralExternalWebsiteConversions";
    "viralExternalWebsitePostClickConversions";
    "viralExternalWebsitePostViewConversions"; "viralFollows";
    "viralFullScreenPlays"; "viralImpressions"; "viralLandingPageClicks";
    "viralLikes"; "viralOneClickLeadFormOpens"; "viralOneClickLeads";
    "viralOtherEngagements"; "viralReactions"; "viralShares";
    "viralTotalEngagements"; "viralVideoCompletions";
    "viralVideoFirstQuartileCompletions"; "viralVideoMidpointCompletions";
    "viralVideoStarts"; "viralVideoThirdQuartileCompletions";
    "viralVideoViews" ].

Definition BASE_ANALLYTICS_FIELDS : list string :=
  [ "dateRange"; "pivot"; "pivotValue" ].

(** Line 119: the slices [fields[f : f + size]] for [f] in
    [range(0, len(fields), size)], before any base field is added. *)
Definition raw_chunks (fields : list string) (fields_chunk_size : Z)
  : result (list (list string)) :=
  starts <- py_range 0 (Z.of_nat (List.length fields)) fields_chunk_size ;;
  Ok (map (fun f => py_slice fields f (f + fields_chunk_size)) starts).

(** Lines 122-124: the inner loop over the base fields, on one chunk. *)
Definition add_base_fields (base_fields chunk : list string) : list string :=
  fold_left
    (fun chunk field => if str_in field chunk then chunk else chunk ++ [field])
    base_fields chunk.

(** Lines 117-125.  The slices are fresh lists, so appending to a chunk
    changes neither [fields] nor another chunk. *)
Definition chunk_analytics_fields (fields : list string) (fields_chunk_size : Z)
  : result (list (list string)) :=
  let base_fields := BASE_ANALLYTICS_FIELDS in
  chunks <- raw_chunks fields fields_chunk_size ;;
  Ok (map (add_base_fields base_fields) chunks).

(** ** Calendar dates

    [pendulum] is an external library.  A [DateTime] is modelled by the
    proleptic Gregorian ordinal of its wall-clock date (day 1 is
    0001-01-01, as [datetime.toordinal]), the microsecond within that day
    and the UTC offset of its zone; [year], [month] and [day] are read off
    the ordinal as CPython's [_ord2ymd] does. *)

Definition is_leap (y : Z) : bool :=
  (y mod 4 =? 0) && (negb (y mod 100 =? 0) || (y mod 400 =? 0)).

Definition days_in_month (y m : Z) : Z :=
  if m =? 2 then (if is_leap y then 29 else 28)
  else if (m =? 4) || (m =? 6) || (m =? 9) || (m =? 11) then 30
  else 31.

(** Days of a common year before the first of month [m]. *)
Definition DAYS_BEFORE_MONTH (m : Z) : Z :=
  nth (Z.to_nat m) [0; 0; 31; 59; 90; 120; 151; 181; 212; 243; 273; 304; 334] 0.

Definition days_before_year (y : Z) : Z :=
  let p := y - 1 in p * 365 + p / 4 - p / 100 + p / 400.

Definition days_before_month (y m : Z) : Z :=
  DAYS_BEFORE_MONTH m + (if (2 <? m) && is_leap y then 1 else 0).

Definition ymd2ord (y m d : Z) : Z :=
  days_before_year y + days_before_month y m + d.

Definition DI400Y : Z := 146097.
Definition DI100Y : Z := 36524.
Definition DI4Y : Z := 1461.
Definition MAXORDINAL : Z := 3652059.

Definition ord2ymd (ord : Z) : Z * Z * Z :=
  let n := ord - 1 in
  let n400 := n / DI400Y in
  let n := n mod DI400Y in
  let n100 := n / DI100Y in
  let n := n mod DI100Y in
  let n4 := n / DI4Y in
  let n := n mod DI4Y in
  let n1 := n / 365 in
  let n := n mod 365 in
  let year := n400 * 400 + 1 + n100 * 100 + n4 * 4 + n1 in
  if (n1 =? 4) || (n100 =? 4) then (year - 1, 12, 31)
  else
    let leapyear := (n1 =? 3) && (negb (n4 =? 24) || (n100 =? 3)) in
    let month := Z.shiftr (n + 50) 5 in
    let preceding :=
      DAYS_BEFORE_MONTH month + (if (2 <? month) && leapyear then 1 else 0) in
    if n <? preceding then
      let month' := month - 1 in
      let preceding' :=
        preceding
        - (nth (Z.to_nat month')
               [0; 31; 28; 31; 30; 31; 30; 31; 31; 30; 31; 30; 31] 0
           + (if (month' =? 2) && leapyear then 1 else 0)) in
      (year, month', n - preceding' + 1)
    else (year, month, n - preceding + 1).

Record DateTime : Type := mkDateTime {
  ordinal : Z;     (* wall-clock date, as a day number *)
  micros : Z;      (* wall-clock time of day, in microseconds *)
  utcoffset : Z    (* offset of the zone from UTC, in microseconds *)
}.

Definition MICROS_PER_DAY : Z := 86400000000.

(** The point in time a [DateTime] denotes; aware values compare by it. *)
Definition instant (d : DateTime) : Z :=
  ordinal d * MICROS_PER_DAY + micros d - utcoffset d.

Definition dt_ltb (a b : DateTime) : bool := instant a <? instant b.
Definition dt_leb (a b : DateTime) : bool := instant a <=? instant b.

Definition dt_year (d : DateTime) : Z := fst (fst (ord2ymd (ordinal d))).
Definition dt_month (d : DateTime) : Z := snd (fst (ord2ymd (ordinal d))).
Definition dt_day (d : DateTime) : Z := snd (ord2ymd (ordinal d)).

(** [d.add(days=n)]: the wall-clock date moves by [n] days, time of day and
    zone stay; leaving the years 1..9999 raises [OverflowError]. *)
Definition days_later (d : DateTime) (n : Z) : DateTime :=
  mkDateTime (ordinal d + n) (micros d) (utcoffset d).

Definition add_days (d : DateTime) (n : Z) : result DateTime :=
  let ord := ordinal d + n in
  if (1 <=? ord) && (ord <=? MAXORDINAL)
  then Ok (days_later d n)
  else Raise OverflowError.

(** The calendar-date texts [YYYY-MM-DD] among those [pendulum.parse]
    reads: midnight UTC of that day. *)
Definition digit (c : ascii) : option Z :=
  let n := Z.of_N (N_of_ascii c) in
  if (48 <=? n) && (n <=? 57) then Some (n - 48) else None.

Definition number (cs : list ascii) : option Z :=
  fold_left
    (fun acc c =>
       match acc, digit c with
       | Some a, Some d => Some (10 * a + d)
       | _, _ => None
       end)
    cs (Some 0).

Definition valid_date (y m d : Z) : bool :=
  (1 <=? y) && (y <=? 9999) && (1 <=? m) && (m <=? 12)
  && (1 <=? d) && (d <=? days_in_month y m).

Definition parse_calendar_date (text : string) : result DateTime :=
  match list_ascii_of_string text with
  | [y1; y2; y3; y4; "-"%char; m1; m2; "-"%char; d1; d2] =>
      match number [y1; y2; y3; y4], number [m1; m2], number [d1; d2] with
      | Some y, Some m, Some d =>
          if valid_date y m d then Ok (mkDateTime (ymd2ord y m d) 0 0)
          else Raise ParserError
      | _, _, _ => Raise ParserError
      end
  | _ => Raise ParserError
  end.

(** ** Date windower *)

(** Lines 137-144: the six components of one window. *)
Definition date_slice (start slice_end_date : DateTime) : pydict :=
  [ ("start.day", VInt (dt_day start));
    ("start.month", VInt (dt_month start));
    ("start.year", VInt (dt_year start));
    ("end.day", VInt (dt_day slice_end_date));
    ("end.month", VInt (dt_month slice_end_date));
    ("end.year", VInt (dt_year slice_end_date)) ].

(** Lines 135-146: the [while] loop, one iteration per unit of fuel;
    [None] when the fuel runs out inside the loop. *)
Fixpoint date_slices_loop (fuel : nat) (start end_ : DateTime)
  (window_in_days : Z) (date_slices : list pydict)
  : option (result (list pydict)) :=
  match fuel with
  | O => None
  | S fuel' =>
      if dt_ltb start end_ then
        match add_days start window_in_days with
        | Raise e => Some (Raise e)
        | Ok slice_end_date =>
            date_slices_loop fuel'
              (if dt_leb slice_end_date end_ then slice_end_date else end_)
              end_ window_in_days
              (date_slices
                 ++ [ [("dateRange", VDict (date_slice start slice_end_date))] ])
        end
      else Some (Ok date_slices)
  end.

Section Windower.
(** [pendulum.parse], and the value [pendulum.now()] returns at this call. *)
Variable parse : string -> result DateTime.
Variable now : DateTime.

(** Line 133: an absent or empty [end_date] means the present time. *)
Definition parse_end (end_date : option string) : result DateTime :=
  match end_date with
  | None | Some "" => Ok now
  | Some text => parse text
  end.

(** Lines 132-147. *)
Definition make_date_slices (fuel : nat) (start_date : string)
  (window_in_days : Z) (end_date : option string)
  : option (result (list pydict)) :=
  match parse start_date with
  | Raise e => Some (Raise e)
  | Ok start =>
      match parse_end end_date with
      | Raise e => Some (Raise e)
      | Ok end_ => date_slices_loop fuel start end_ window_in_days []
      end
  end.
End Windower.

(** ** Slice builder *)

Section SliceBuilder.
Variable parse : string -> result DateTime.
(** [clock i] is what [pendulum.now()] returns the [i]-th time the
    function asks for it: once for each chunk of fields. *)
Variable clock : nat -> DateTime.
(** [make_slice] of [utils.py] builds the base slice of the stream. *)
Variable make_slice : list value -> pydict -> result pydict.

(** Lines 161-163: the inner loop; [base_slice] is the shared
    dictionary, every slice appended is a copy of its current state. *)
Definition add_date_slices (base_slice : pydict) (analytics_slices : list pydict)
  (date_slices : list pydict) : pydict * list pydict :=
  fold_left
    (fun st date_slice =>
       let base_slice := dict_update (fst st) date_slice in
       (base_slice, snd st ++ [base_slice]))
    date_slices (base_slice, analytics_slices).

(** Lines 159-163: the outer loop over the chunks of fields. *)
Fixpoint analytics_slices_loop (fuel : nat) (start_date : string)
  (chunks : list (list string)) (tick : nat)
  (base_slice : pydict) (analytics_slices : list pydict)
  : option (result (list pydict)) :=
  match chunks with
  | [] => Some (Ok analytics_slices)
  | fields_set :: rest =>
      let base_slice :=
        dict_update base_slice [("fields", VStr (String.concat "," fields_set))] in
      match make_date_slices parse (clock tick) fuel start_date WINDOW_IN_DAYS None with
      | None => None
      | Some (Raise e) => Some (Raise e)
      | Some (Ok date_slices) =>
          let st := add_date_slices base_slice analytics_slices date_slices in
          analytics_slices_loop fuel start_date rest (S tick) (fst st) (snd st)
      end
  end.

(** Lines 156-164. *)
Definition make_analytics_slices (fuel : nat) (records : list value)
  (key_value_map : pydict) (start_date : string)
  : option (result (list pydict)) :=
  match make_slice records key_value_map with
  | Raise e => Some (Raise e)
  | Ok base_slice =>
      match chunk_analytics_fields ANALYTICS_FIELDS_V2 FIELDS_CHUNK_SIZE with
      | Raise e => Some (Raise e)
      | Ok chunks => analytics_slices_loop fuel start_date chunks O base_slice []
      end
  end.
End SliceBuilder.

(** ** Parameter flattener *)

(** Lines 171-182: the entries of the dictionary display are evaluated in
    order, each subscript raising on a missing key. *)
Definition update_analytics_params (stream_slice : pydict) : result pydict :=
  dr1 <- dict_item stream_slice "dateRange" ;; start_day <- subscript dr1 "start.day" ;;
  dr2 <- dict_item stream_slice "dateRange" ;; start_month <- subscript dr2 "start.month" ;;
  dr3 <- dict_item stream_slice "dateRange" ;; start_year <- subscript dr3 "start.year" ;;
  dr4 <- dict_item stream_slice "dateRange" ;; end_day <- subscript dr4 "end.day" ;;
  dr5 <- dict_item stream_slice "dateRange" ;; end_month <- subscript dr5 "end.month" ;;
  dr6 <- dict_item stream_slice "dateRange" ;; end_year <- subscript dr6 "end.year" ;;
  fields <- dict_item stream_slice "fields" ;;
  Ok [ ("dateRange.start.day", start_day);
       ("dateRange.start.month", start_month);
       ("dateRange.start.year", start_year);
       ("dateRange.end.day", end_day);
       ("dateRange.end.month", end_month);
       ("dateRange.end.year", end_year);
       ("fields", fields) ].

(** ** Result merger

    The records are Python objects: [merge_chunks] stores references to
    them in [merged] and updates the referenced record in place.  A record
    is therefore a location of a heap, and the function returns the list
    of locations together with the heap it leaves. *)

Definition loc : Type := nat.
Definition heap : Type := loc -> pydict.

Definition heap_set (h : heap) (l : loc) (d : pydict) : heap :=
  fun l' => if Nat.eqb l' l then d else h l'.

(** The dictionary [merged]: hashable key to record, in insertion order. *)
Definition merged_dict : Type := list (hkey * loc).

Fixpoint merged_get (merged : merged_dict) (k : hkey) : option loc :=
  match merged with
  | [] => None
  | (k', l) :: rest => if hkey_eqb k' k then Some l else merged_get rest k
  end.

(** Lines 193-197: the body of the inner loop, on the record [key].
    [key[merge_by_key]] raises [KeyError] when the field is missing;
    [head_key in merged] hashes the key and raises [TypeError] when it
    cannot; [update] writes into the record [merged] refers to. *)
Definition merge_record (merge_by_key : string) (st : heap * merged_dict)
  (key : loc) : result (heap * merged_dict) :=
  let h := fst st in
  let merged := snd st in
  v <- dict_item (h key) merge_by_key ;;
  head_key <- hash_key v ;;
  match merged_get merged head_key with
  | Some target => Ok (heap_set h target (dict_update (h target) (h key)), merged)
  | None => Ok (h, merged ++ [(head_key, key)])
  end.

(** Lines 190-202: the two loops, then the values of [merged] in the order
    of its keys. *)
Definition merge_chunks (h : heap) (chunked_result : list (list loc))
  (merge_by_key : string) : result (heap * list loc) :=
  st <- for_each
          (fun st chunk => for_each (merge_record merge_by_key) chunk st)
          chunked_result (h, []) ;;
  Ok (fst st, map snd (snd st)).

(** A response as the transport delivers it: every record a fresh object.
    [load] stores the records of the chunks at consecutive locations. *)
Fixpoint load_chunk (next : loc) (chunk : list pydict) (h : heap)
  : heap * list loc :=
  match chunk with
  | [] => (h, [])
  | d :: rest =>
      let r := load_chunk (S next) rest (heap_set h next d) in
      (fst r, next :: snd r)
  end.

Fixpoint load (next : loc) (chunks : list (list pydict)) (h : heap)
  : heap * list (list loc) :=
  match chunks with
  | [] => (h, [])
  | chunk :: rest =>
      let c := load_chunk next chunk h in
      let r := load (next + List.length chunk)%nat rest (fst c) in
      (fst r, snd c :: snd r)
  end.

(** [merge_chunks] on freshly built records, the result read back. *)
Definition merge_chunks_fresh (chunked_result : list (list pydict))
  (merge_by_key : string) : result (list pydict) :=
  let input := load O chunked_result (fun _ => []) in
  out <- merge_chunks (fst input) (snd input) merge_by_key ;;
  Ok (map (fst out) (snd out)).

(** ** Definitions used to state the properties *)

(** The consecutive [m]-sized pieces of a list: piece [i] starts at [i * m]. *)
Definition piece {A : Type} (m : nat) (l : list A) (i : nat) : list A :=
  firstn m (skipn (i * m) l).

(** The window with index [k] of a run that starts at [start]: from
    [k * window] days to [(k + 1) * window] days after it. *)
Definition window_at (start : DateTime) (window : Z) (k : nat) : pydict :=
  [ ("dateRange",
     VDict (date_slice (days_later start (Z.of_nat k * window))
                       (days_later start ((Z.of_nat k + 1) * window)))) ].

(** Whether [ord2ymd] gives a date of the calendar from which [ymd2ord]
    gives the ordinal back, on the ordinals from [first] to [last]. *)
Definition calendar_agrees (first last : Z) : bool :=
  forallb
    (fun i =>
       let ord := first + Z.of_nat i in
       let ymd := ord2ymd ord in
       valid_date (fst (fst ymd)) (snd (fst ymd)) (snd ymd)
       && (ymd2ord (fst (fst ymd)) (snd (fst ymd)) (snd ymd) =? ord))
    (seq 0 (Z.to_nat (last - first + 1))).

(** How many windows of [window] days it takes, from [start], to reach or
    pass [end_]. *)
Definition window_count (start end_ : DateTime) (window : Z) : nat :=
  if instant start <? instant end_
  then Z.to_nat ((instant end_ - instant start - 1) / (window * MICROS_PER_DAY) + 1)
  else O.

(** A window whose end components are the day, month and year of [d]. *)
Definition ends_at (window : pydict) (d : DateTime) : Prop :=
  exists date_range,
    dict_get window "dateRange" = Some (VDict date_range) /\
    dict_get date_range "end.day" = Some (VInt (dt_day d)) /\
    dict_get date_range "end.month" = Some (VInt (dt_month d)) /\
    dict_get date_range "end.year" = Some (VInt (dt_year d)).

Definition starts_at (window : pydict) (d : DateTime) : Prop :=
  exists date_range,
    dict_get window "dateRange" = Some (VDict date_range) /\
    dict_get date_range "start.day" = Some (VInt (dt_day d)) /\
    dict_get date_range "start.month" = Some (VInt (dt_month d)) /\
    dict_get date_range "start.year" = Some (VInt (dt_year d)).

(** The slice built for one chunk of fields and one date window. *)
Definition slice_of (base_slice : pydict) (fields_set : list string)
  (date_slice : pydict) : pydict :=
  dict_update
    (dict_update base_slice [("fields", VStr (String.concat "," fields_set))])
    date_slice.

(** The shape of every element [make_date_slices] returns. *)
Definition is_date_window (d : pydict) : Prop :=
  exists v, d = [("dateRange", v)].

(** The key under which [merge_chunks] files a record. *)
Definition record_key (merge_by_key : string) (d : pydict) : result hkey :=
  v <- dict_item d merge_by_key ;; hash_key v.

Definition has_key (merge_by_key : string) (hk : hkey) (d : pydict) : bool :=
  match record_key merge_by_key d with
  | Ok hk' => hkey_eqb hk' hk
  | Raise _ => false
  end.

(** The keys of the records that have one, in the order of the records. *)
Definition record_keys (merge_by_key : string) (records : list pydict)
  : list hkey :=
  flat_map
    (fun d => match record_key merge_by_key d with
              | Ok hk => [hk]
              | Raise _ => []
              end)
    records.

(** The distinct keys of a list, each at its first sighting. *)
Definition first_seen (keys : list hkey) : list hkey :=
  fold_left
    (fun seen hk => if existsb (hkey_eqb hk) seen then seen else seen ++ [hk])
    keys [].

(** The record merged for one key: the first record with that key, updated
    with every later record with that key, in their order. *)
Definition merged_record (merge_by_key : string) (records : list pydict)
  (hk : hkey) : pydict :=
  match filter (has_key merge_by_key hk) records with
  | [] => []
  | first :: later => fold_left dict_update later first
  end.

(** What the specification asks of the merger: one merged record for each
    distinct key, in the order of first sighting. *)
Definition merge_spec (merge_by_key : string) (records : list pydict)
  : list pydict :=
  map (merged_record merge_by_key records)
      (first_seen (record_keys merge_by_key records)).

(** The merger on records taken as values (no sharing): [merged] maps a
    key to the record accumulated for it. *)
Fixpoint upsert (merged : list (hkey * pydict)) (hk : hkey) (d : pydict)
  : list (hkey * pydict) :=
  match merged with
  | [] => [(hk, d)]
  | (hk', r) :: rest =>
      if hkey_eqb hk' hk then (hk', dict_update r d) :: rest
      else (hk', r) :: upsert rest hk d
  end.

Definition merge_value (merge_by_key : string) (merged : list (hkey * pydict))
  (d : pydict) : result (list (hkey * pydict)) :=
  hk <- record_key merge_by_key d ;; Ok (upsert merged hk d).

(** The records [merged] refers to, read in the heap [h]. *)
Definition view (h : heap) (merged : merged_dict) : list (hkey * pydict) :=
  map (fun e => (fst e, h (snd e))) merged.

(** A dictionary binds each of its keys once. *)
Definition well_formed (d : pydict) : Prop := NoDup (map fst d).

(** A window as the loop of [make_date_slices] builds it: the components
    of two dates under the single key ["dateRange"]. *)
Definition is_window_of_dates (d : pydict) : Prop :=
  exists a b, d = [("dateRange", VDict (date_slice a b))].

(** The flat parameters of the request for the comma-joined [fields] over
    the days from [a] to [b]. *)
Definition request_params (fields : string) (a b : DateTime) : pydict :=
  [ ("dateRange.start.day", VInt (dt_day a));
    ("dateRange.start.month", VInt (dt_month a));
    ("dateRange.start.year", VInt (dt_year a));
    ("dateRange.end.day", VInt (dt_day b));
    ("dateRange.end.month", VInt (dt_month b));
    ("dateRange.end.year", VInt (dt_year b));
    ("fields", VStr fields) ].

(** The six components read from ["dateRange"], in the order the
    dictionary display of [update_analytics_params] evaluates them. *)
Definition DATE_RANGE_COMPONENTS : list string :=
  [ "start.day"; "start.month"; "start.year";
    "end.day"; "end.month"; "end.year" ].

(** What the loop of [merge_chunks] keeps true of its state, [h0] being the
    heap it started from: the records are dictionaries, each has the key
    (or the lack of one) it came with, and [merged] files each record under
    its key. *)
Definition keeps_keys (merge_by_key : string) (h0 : heap)
  (st : heap * merged_dict) : Prop :=
  (forall l, well_formed (fst st l)) /\
  (forall l, record_key merge_by_key (fst st l) = record_key merge_by_key (h0 l)) /\
  (forall hk t, merged_get (snd st) hk = Some t ->
                record_key merge_by_key (fst st t) = Ok hk).

(** The value a field has in the last of the records that bind it. *)
Definition last_value (f : string) (records : list pydict) : option value :=
  fold_left
    (fun found d => match dict_get d f with Some v => Some v | None => found end)
    records None.

(** * Properties *)

(** ** Lists and slices *)

Lemma firstn_plus {A : Type} (a b : nat) (l : list A) :
  firstn (a + b) l = firstn a l ++ firstn b (skipn a l).
Proof.
  revert l; induction a as [|a IH]; intros l; simpl.
  - reflexivity.
  - destruct l as [|x l]; simpl.
    + now rewrite firstn_nil.
    + now rewrite IH.
Qed.

Lemma concat_pieces {A : Type} (m n : nat) (l : list A) :
  List.concat (map (piece m l) (seq 0 n)) = firstn (n * m) l.
Proof.
  induction n as [|n IH].
  - reflexivity.
  - rewrite seq_S, map_app, concat_app, IH; simpl.
    rewrite app_nil_r. unfold piece.
    replace (m + n * m)%nat with (n * m + m)%nat by lia.
    now rewrite firstn_plus.
Qed.

Lemma piece_length {A : Type} (m : nat) (l : list A) (i : nat) :
  List.length (piece m l i) = Nat.min m (List.length l - i * m).
Proof. unfold piece. now rewrite length_firstn, length_skipn. Qed.

Lemma range_length_spec (len M : Z) :
  0 <= len -> 0 < M ->
  let n := Z.of_nat (range_length 0 len M) in
  len <= n * M /\ (0 < len -> (n - 1) * M < len) /\ (len = 0 -> n = 0).
Proof.
  intros Hlen HM. unfold range_length.
  destruct (Z.leb_spec len 0) as [H0|H0]; simpl.
  - lia.
  - rewrite Z.sub_0_r.
    assert (Hq : 0 <= (len - 1) / M) by (apply Z.div_pos; lia).
    rewrite Z2Nat.id by lia.
    pose proof (Z.div_mod (len - 1) M ltac:(lia)) as Hdm.
    pose proof (Z.mod_pos_bound (len - 1) M HM) as Hmod.
    nia.
Qed.

Lemma raw_chunks_pieces (fields : list string) (M : Z) :
  0 < M ->
  raw_chunks fields M =
  Ok (map (piece (Z.to_nat M) fields)
          (seq 0 (range_length 0 (Z.of_nat (List.length fields)) M))).
Proof.
  intros HM. unfold raw_chunks, py_range.
  destruct (Z.eqb_spec M 0) as [->|_]; [lia|].
  destruct (Z.ltb_spec 0 M) as [_|]; [|lia].
  simpl. f_equal. rewrite map_map. apply map_ext. intros i.
  unfold py_slice, piece. simpl.
  replace (Z.of_nat i * M + M - Z.of_nat i * M) with M by lia.
  f_equal. f_equal. rewrite Z2Nat.inj_mul by lia. now rewrite Nat2Z.id.
Qed.

(** ** Field chunker *)

Lemma str_in_In (x : string) (xs : list string) : str_in x xs = true <-> In x xs.
Proof.
  induction xs as [|y xs IH]; simpl.
  - split; [discriminate | tauto].
  - rewrite orb_true_iff, IH, String.eqb_eq. tauto.
Qed.

Lemma str_in_app (x : string) (xs ys : list string) :
  str_in x (xs ++ ys) = str_in x xs || str_in x ys.
Proof.
  induction xs as [|y xs IH]; simpl; [reflexivity|].
  now rewrite IH, orb_assoc.
Qed.

(** The loop over the base fields appends the missing ones, in their order. *)
Lemma add_base_fields_missing (base chunk : list string) :
  NoDup base ->
  add_base_fields base chunk
  = chunk ++ filter (fun b => negb (str_in b chunk)) base.
Proof.
  unfold add_base_fields. revert chunk.
  induction base as [|b base IH]; intros chunk Hnd; simpl.
  - now rewrite app_nil_r.
  - inversion Hnd as [|? ? Hnotin Hnd']; subst.
    destruct (str_in b chunk) eqn:Hb; simpl.
    + now apply IH.
    + rewrite IH by assumption. rewrite <- app_assoc. simpl.
      f_equal. f_equal. apply filter_ext_in. intros x Hx.
      rewrite str_in_app. simpl. rewrite orb_false_r.
      destruct (String.eqb_spec b x) as [->|_]; [contradiction|].
      now rewrite orb_false_r.
Qed.

Lemma BASE_ANALLYTICS_FIELDS_NoDup : NoDup BASE_ANALLYTICS_FIELDS.
Proof.
  unfold BASE_ANALLYTICS_FIELDS.
  repeat constructor; simpl; intuition discriminate.
Qed.

Lemma raw_chunks_shape (fields : list string) (M : Z) :
  0 < M ->
  exists raw,
    raw_chunks fields M = Ok raw /\
    (forall i, (i < List.length raw)%nat ->
               nth i raw [] = piece (Z.to_nat M) fields i) /\
    List.concat raw = fields /\
    (forall i, (S i < List.length raw)%nat ->
               List.length (nth i raw []) = Z.to_nat M) /\
    Forall (fun c => (0 < List.length c <= Z.to_nat M)%nat) raw.
Proof.
  intros HM. rewrite raw_chunks_pieces by assumption.
  set (m := Z.to_nat M). set (len := List.length fields).
  set (n := range_length 0 (Z.of_nat len) M).
  destruct (range_length_spec (Z.of_nat len) M ltac:(lia) HM)
    as (Hcover & Htight & Hempty).
  fold n in Hcover, Htight, Hempty.
  assert (Hm : Z.of_nat m = M) by (unfold m; lia).
  assert (Hnth : forall i, (i < n)%nat ->
            nth i (map (piece m fields) (seq 0 n)) [] = piece m fields i).
  { intros i Hi.
    rewrite (nth_indep _ [] (piece m fields 0))
      by now rewrite length_map, length_seq.
    rewrite (map_nth (piece m fields)), seq_nth by assumption.
    reflexivity. }
  eexists; split; [reflexivity|].
  rewrite length_map, length_seq.
  split; [exact Hnth|]. split; [|split].
  - rewrite concat_pieces. apply firstn_all2. fold len. nia.
  - intros i Hi. rewrite Hnth by lia. rewrite piece_length. fold len. nia.
  - apply Forall_forall. intros c Hc.
    apply in_map_iff in Hc as (i & <- & Hi). apply in_seq in Hi.
    rewrite piece_length. fold len. nia.
Qed.

(** C4: for a chunk size [M > 0] the chunks, before the base fields are
    added, are the consecutive [M]-sized slices of the catalog (the last one
    possibly shorter, none empty); their concatenation is the catalog, and
    each slice is the leading part of the chunk returned for it. *)
Theorem chunks_slice_the_catalog (fields : list string) (M : Z) :
  0 < M ->
  exists raw chunks,
    raw_chunks fields M = Ok raw /\
    chunk_analytics_fields fields M = Ok chunks /\
    List.length chunks = List.length raw /\
    (forall i, (i < List.length raw)%nat ->
       nth i raw [] = firstn (Z.to_nat M) (skipn (i * Z.to_nat M) fields) /\
       firstn (List.length (nth i raw [])) (nth i chunks []) = nth i raw []) /\
    List.concat raw = fields /\
    (forall i, (S i < List.length raw)%nat ->
               List.length (nth i raw []) = Z.to_nat M) /\
    Forall (fun c => (0 < List.length c <= Z.to_nat M)%nat) raw.
Proof.
  intros HM.
  destruct (raw_chunks_shape fields M HM) as (raw & Hraw & Hnth & Hcat & Hfull & Hlen).
  exists raw, (map (add_base_fields BASE_ANALLYTICS_FIELDS) raw).
  split; [assumption|]. split.
  { unfold chunk_analytics_fields. now rewrite Hraw. }
  split; [now rewrite length_map|].
  split; [|now repeat split].
  intros i Hi. split; [now apply Hnth|].
  rewrite (nth_indep (map _ raw) [] (add_base_fields BASE_ANALLYTICS_FIELDS []))
    by now rewrite length_map.
  rewrite (map_nth (add_base_fields BASE_ANALLYTICS_FIELDS)).
  rewrite add_base_fields_missing by apply BASE_ANALLYTICS_FIELDS_NoDup.
  rewrite firstn_app, Nat.sub_diag, firstn_all. simpl. now rewrite app_nil_r.
Qed.

(** C3: for a chunk size [M > 0] every chunk returned is its slice of the
    catalog followed by the base fields that slice lacks, in the order of
    the base-field list; so every chunk holds every base field. *)
Theorem every_chunk_holds_the_base_fields (fields : list string) (M : Z) :
  0 < M ->
  exists raw chunks,
    raw_chunks fields M = Ok raw /\
    chunk_analytics_fields fields M = Ok chunks /\
    chunks = map (fun slice =>
                    slice ++ filter (fun b => negb (str_in b slice))
                                    BASE_ANALLYTICS_FIELDS) raw /\
    forall chunk, In chunk chunks ->
      forall b, In b BASE_ANALLYTICS_FIELDS -> In b chunk.
Proof.
  intros HM.
  destruct (raw_chunks_shape fields M HM) as (raw & Hraw & _).
  exists raw, (map (add_base_fields BASE_ANALLYTICS_FIELDS) raw).
  split; [assumption|]. split.
  { unfold chunk_analytics_fields. now rewrite Hraw. }
  assert (Heq : map (add_base_fields BASE_ANALLYTICS_FIELDS) raw
                = map (fun slice =>
                    slice ++ filter (fun b => negb (str_in b slice))
                                    BASE_ANALLYTICS_FIELDS) raw).
  { apply map_ext. intros slice.
    apply add_base_fields_missing, BASE_ANALLYTICS_FIELDS_NoDup. }
  split; [exact Heq|].
  rewrite Heq. intros chunk Hchunk b Hb.
  apply in_map_iff in Hchunk as (slice & <- & _).
  apply in_or_app. destruct (str_in b slice) eqn:Hin.
  - left. now apply str_in_In.
  - right. apply filter_In. now rewrite Hin.
Qed.

(** ** Parameter flattener *)

(** C6: on a slice that has a ["dateRange"] entry with its six components
    and a ["fields"] entry, the flat mapping returned has exactly the seven
    keys of the request, each bound to the value found in the slice. *)
Theorem update_analytics_params_copies
  (stream_slice date_range : pydict)
  (start_day start_month start_year end_day end_month end_year fields : value) :
  dict_get stream_slice "dateRange" = Some (VDict date_range) ->
  dict_get date_range "start.day" = Some start_day ->
  dict_get date_range "start.month" = Some start_month ->
  dict_get date_range "start.year" = Some start_year ->
  dict_get date_range "end.day" = Some end_day ->
  dict_get date_range "end.month" = Some end_month ->
  dict_get date_range "end.year" = Some end_year ->
  dict_get stream_slice "fields" = Some fields ->
  exists params,
    update_analytics_params stream_slice = Ok params /\
    map fst params =
      [ "dateRange.start.day"; "dateRange.start.month"; "dateRange.start.year";
        "dateRange.end.day"; "dateRange.end.month"; "dateRange.end.year";
        "fields" ] /\
    dict_get params "dateRange.start.day" = Some start_day /\
    dict_get params "dateRange.start.month" = Some start_month /\
    dict_get params "dateRange.start.year" = Some start_year /\
    dict_get params "dateRange.end.day" = Some end_day /\
    dict_get params "dateRange.end.month" = Some end_month /\
    dict_get params "dateRange.end.year" = Some end_year /\
    dict_get params "fields" = Some fields.
Proof.
  intros Hdr Hsd Hsm Hsy Hed Hem Hey Hf.
  eexists. split.
  - unfold update_analytics_params, dict_item, subscript, dict_item.
    rewrite Hdr; simpl. rewrite Hsd, Hsm, Hsy, Hed, Hem, Hey; simpl.
    rewrite Hf; simpl. reflexivity.
  - repeat split; reflexivity.
Qed.

(** ** Calendar *)

Example parse_2021_01_01 :
  parse_calendar_date "2021-01-01" = Ok (mkDateTime 737791 0 0).
Proof. reflexivity. Qed.

Example parse_rejects_february_30 :
  parse_calendar_date "2021-02-30" = Raise ParserError.
Proof. reflexivity. Qed.

Example ord2ymd_bounds :
  ord2ymd 1 = (1, 1, 1) /\ ord2ymd MAXORDINAL = (9999, 12, 31).
Proof. split; reflexivity. Qed.

Example ord2ymd_leap_day :
  ord2ymd (ymd2ord 2020 2 29) = (2020, 2, 29) /\
  ord2ymd (ymd2ord 2020 2 29 + 1) = (2020, 3, 1) /\
  ord2ymd (ymd2ord 1900 2 28 + 1) = (1900, 3, 1) /\
  ord2ymd (ymd2ord 2000 12 31 + 1) = (2001, 1, 1).
Proof. repeat split; reflexivity. Qed.

(** The two conversions agree on every day of 1899-1905 (1900 is not a
    leap year), of 1999-2005 (2000 is one) and of 2019-2032. *)
Example calendar_agrees_around_1900 :
  calendar_agrees (ymd2ord 1899 1 1) (ymd2ord 1905 12 31) = true.
Proof. vm_compute. reflexivity. Qed.

Example calendar_agrees_around_2000 :
  calendar_agrees (ymd2ord 1999 1 1) (ymd2ord 2005 12 31) = true.
Proof. vm_compute. reflexivity. Qed.

Example calendar_agrees_2019_2032 :
  calendar_agrees (ymd2ord 2019 1 1) (ymd2ord 2032 12 31) = true.
Proof. vm_compute. reflexivity. Qed.

Example add_days_leaves_the_calendar :
  add_days (mkDateTime (ymd2ord 9999 12 15) 0 0) 30 = Raise OverflowError.
Proof. reflexivity. Qed.

(** ** Date windower *)

Lemma MICROS_PER_DAY_pos : 0 < MICROS_PER_DAY.
Proof. reflexivity. Qed.

Lemma instant_days_later (d : DateTime) (n : Z) :
  instant (days_later d n) = instant d + n * MICROS_PER_DAY.
Proof. unfold instant, days_later; simpl. ring. Qed.

Lemma date_slice_ordinals (a a' b b' : DateTime) :
  ordinal a = ordinal a' -> ordinal b = ordinal b' ->
  date_slice a b = date_slice a' b'.
Proof.
  intros Ha Hb. unfold date_slice, dt_day, dt_month, dt_year.
  now rewrite Ha, Hb.
Qed.

Lemma add_days_in_range (d : DateTime) (n : Z) :
  1 <= ordinal d + n <= MAXORDINAL -> add_days d n = Ok (days_later d n).
Proof.
  intros [Hlo Hhi]. unfold add_days.
  apply Z.leb_le in Hlo, Hhi. now rewrite Hlo, Hhi.
Qed.

Lemma add_days_inv (d d' : DateTime) (n : Z) :
  add_days d n = Ok d' ->
  d' = days_later d n /\ 1 <= ordinal d + n <= MAXORDINAL.
Proof.
  unfold add_days.
  destruct (Z.leb_spec 1 (ordinal d + n)), (Z.leb_spec (ordinal d + n) MAXORDINAL);
    simpl; intros Heq; inversion Heq; subst; split; auto; lia.
Qed.

(** The loop is left as soon as the cursor is not before the end. *)
Lemma date_slices_loop_done (fuel : nat) (c e : DateTime) (w : Z) (acc : list pydict) :
  dt_ltb c e = false -> date_slices_loop (S fuel) c e w acc = Some (Ok acc).
Proof. intros H; simpl. now rewrite H. Qed.

Lemma window_count_bracket (c e : DateTime) (w : Z) :
  0 < w -> instant c < instant e ->
  let n := Z.of_nat (window_count c e w) in
  1 <= n /\
  instant c + (n - 1) * (w * MICROS_PER_DAY) < instant e
  /\ instant e <= instant c + n * (w * MICROS_PER_DAY).
Proof.
  intros Hw Hlt. unfold window_count.
  apply Z.ltb_lt in Hlt as Hb. rewrite Hb. clear Hb.
  pose proof MICROS_PER_DAY_pos as HD.
  set (W := w * MICROS_PER_DAY). assert (HW : 0 < W) by (unfold W; nia).
  set (d := instant e - instant c - 1).
  assert (Hq : 0 <= d / W) by (apply Z.div_pos; unfold d; lia).
  rewrite Z2Nat.id by lia.
  pose proof (Z.div_mod d W ltac:(lia)) as Hdm.
  pose proof (Z.mod_pos_bound d W HW) as Hmod.
  unfold d in *. nia.
Qed.

(** A count is determined by the bracket it satisfies. *)
Lemma window_count_unique (c e : DateTime) (w : Z) (n : nat) :
  0 < w -> instant c < instant e ->
  instant c + (Z.of_nat n - 1) * (w * MICROS_PER_DAY) < instant e ->
  instant e <= instant c + Z.of_nat n * (w * MICROS_PER_DAY) ->
  window_count c e w = n.
Proof.
  intros Hw Hlt Hlo Hhi.
  destruct (window_count_bracket c e w Hw Hlt) as (_ & Hlo' & Hhi').
  pose proof MICROS_PER_DAY_pos as HD.
  assert (HW : 0 < w * MICROS_PER_DAY) by nia.
  apply Nat2Z.inj. nia.
Qed.

Lemma window_count_zero (c e : DateTime) (w : Z) :
  0 < w -> window_count c e w = O -> dt_ltb c e = false.
Proof.
  intros Hw H0. unfold dt_ltb.
  destruct (Z.ltb_spec (instant c) (instant e)) as [Hlt|]; [|reflexivity].
  destruct (window_count_bracket c e w Hw Hlt) as (H1 & _). lia.
Qed.

(** For a positive window the loop emits [window_count] windows, one every
    [w] days from the cursor, unless a window end leaves the calendar. *)
Lemma date_slices_loop_windows (e : DateTime) (w : Z) :
  0 < w ->
  forall (n : nat) (c : DateTime) (acc : list pydict) (fuel : nat),
    window_count c e w = n ->
    1 <= ordinal c ->
    ordinal c + Z.of_nat n * w <= MAXORDINAL ->
    (n < fuel)%nat ->
    date_slices_loop fuel c e w acc
    = Some (Ok (acc ++ map (window_at c w) (seq 0 n))).
Proof.
  intros Hw. pose proof MICROS_PER_DAY_pos as HD.
  induction n as [|n IH]; intros c acc fuel Hcount Hlo Hhi Hfuel.
  - destruct fuel as [|fuel]; [lia|].
    rewrite date_slices_loop_done by eauto using window_count_zero.
    simpl. now rewrite app_nil_r.
  - destruct fuel as [|fuel]; [lia|].
    assert (Hlt : instant c < instant e).
    { unfold window_count in Hcount.
      destruct (Z.ltb_spec (instant c) (instant e)); [assumption|discriminate]. }
    destruct (window_count_bracket c e w Hw Hlt) as (_ & Hb1 & Hb2).
    rewrite Hcount in Hb1, Hb2.
    rewrite Nat2Z.inj_succ in Hhi, Hb1, Hb2.
    assert (Hnw : 0 <= Z.of_nat n * w) by nia.
    cbn [date_slices_loop]. unfold dt_ltb at 1.
    apply Z.ltb_lt in Hlt as Hltb. rewrite Hltb.
    rewrite add_days_in_range by lia.
    assert (Hfirst : [("dateRange", VDict (date_slice c (days_later c w)))]
                     = window_at c w 0).
    { unfold window_at. do 3 f_equal.
      apply date_slice_ordinals; unfold days_later; cbn [ordinal]; lia. }
    unfold dt_leb. rewrite instant_days_later.
    destruct (Z.leb_spec (instant c + w * MICROS_PER_DAY) (instant e)) as [Hle|Hgt].
    + rewrite (IH (days_later c w));
        try (unfold days_later; cbn [ordinal]; lia).
      * rewrite <- app_assoc. f_equal. rewrite Hfirst.
        change (seq 0 (S n)) with (0%nat :: seq 1 n).
        rewrite <- seq_shift. cbn [map app]. rewrite map_map.
        rewrite (map_ext (window_at (days_later c w) w)
                         (fun k => window_at c w (S k))); [reflexivity|].
        intros k. unfold window_at. do 3 f_equal.
        apply date_slice_ordinals; unfold days_later; cbn [ordinal]; lia.
      * destruct n as [|n].
        -- unfold window_count. rewrite instant_days_later.
           destruct (Z.ltb_spec (instant c + w * MICROS_PER_DAY) (instant e));
             [nia|reflexivity].
        -- apply window_count_unique; try assumption;
             rewrite ?instant_days_later; nia.
    + assert (n = O) by nia. subst n.
      destruct fuel as [|fuel]; [lia|].
      rewrite date_slices_loop_done by (unfold dt_ltb; apply Z.ltb_irrefl).
      now rewrite Hfirst.
Qed.

Lemma window_at_starts (start : DateTime) (w : Z) (k : nat) :
  starts_at (window_at start w k) (days_later start (Z.of_nat k * w)).
Proof. unfold starts_at, window_at. eexists. repeat split; reflexivity. Qed.

Lemma window_at_ends (start : DateTime) (w : Z) (k : nat) :
  ends_at (window_at start w k) (days_later start (Z.of_nat k * w + w)).
Proof.
  unfold ends_at, window_at. eexists. split; [reflexivity|].
  replace (date_slice (days_later start (Z.of_nat k * w))
                      (days_later start ((Z.of_nat k + 1) * w)))
    with (date_slice (days_later start (Z.of_nat k * w))
                     (days_later start (Z.of_nat k * w + w)))
    by (apply date_slice_ordinals; unfold days_later; cbn [ordinal]; lia).
  repeat split; reflexivity.
Qed.

Lemma window_at_first (start : DateTime) (w : Z) :
  starts_at (window_at start w 0) start.
Proof.
  unfold starts_at, window_at. eexists. split; [reflexivity|].
  replace (date_slice (days_later start (Z.of_nat 0 * w))
                      (days_later start ((Z.of_nat 0 + 1) * w)))
    with (date_slice start (days_later start w))
    by (apply date_slice_ordinals; unfold days_later; cbn [ordinal]; lia).
  repeat split; reflexivity.
Qed.

(** C8: when the parsed start is not before the parsed end the loop body
    never runs, whatever the window: the result is the empty list. *)
Theorem make_date_slices_empty
  (parse : string -> result DateTime) (now : DateTime)
  (start_date : string) (window_in_days : Z) (end_date : option string)
  (start end_ : DateTime) (fuel : nat) :
  parse start_date = Ok start ->
  parse_end parse now end_date = Ok end_ ->
  instant end_ <= instant start ->
  make_date_slices parse now (S fuel) start_date window_in_days end_date
  = Some (Ok []).
Proof.
  intros Hs He Hle. unfold make_date_slices. rewrite Hs, He.
  apply date_slices_loop_done. unfold dt_ltb. now apply Z.ltb_ge.
Qed.

(** C1, as the code has it: for a window of at least one day and a start
    before the end, the function returns [window_count] windows (at least
    one).  Window [k] starts [k] windows after the start and ends exactly
    one window later, so the first window starts at the start, consecutive
    windows meet, and every window, the last one included, spans
    [window_in_days] days.  The last window is the first whose end reaches
    the end date: its end is the start plus a whole number of windows, on or
    after the end date, never cut back to it.  The dates must stay within
    the years 1 to 9999. *)
Theorem make_date_slices_windows
  (parse : string -> result DateTime) (now : DateTime)
  (start_date : string) (window_in_days : Z) (end_date : option string)
  (start end_ : DateTime) :
  parse start_date = Ok start ->
  parse_end parse now end_date = Ok end_ ->
  instant start < instant end_ ->
  0 < window_in_days ->
  1 <= ordinal start ->
  ordinal start
    + Z.of_nat (window_count start end_ window_in_days) * window_in_days
    <= MAXORDINAL ->
  let n := window_count start end_ window_in_days in
  let windows := map (window_at start window_in_days) (seq 0 n) in
  (forall fuel, (n < fuel)%nat ->
     make_date_slices parse now fuel start_date window_in_days end_date
     = Some (Ok windows)) /\
  (1 <= n)%nat /\
  starts_at (nth 0 windows []) start /\
  (forall k, (k < n)%nat ->
     starts_at (nth k windows [])
       (days_later start (Z.of_nat k * window_in_days)) /\
     ends_at (nth k windows [])
       (days_later start (Z.of_nat k * window_in_days + window_in_days))) /\
  instant (days_later start ((Z.of_nat n - 1) * window_in_days)) < instant end_ /\
  instant end_ <= instant (days_later start (Z.of_nat n * window_in_days)).
Proof.
  intros Hs He Hlt Hw Hlo Hhi n windows.
  destruct (window_count_bracket start end_ window_in_days Hw Hlt)
    as (Hn & Hb1 & Hb2).
  fold n in Hn, Hb1, Hb2.
  assert (Hnth : forall k, (k < n)%nat ->
            nth k windows [] = window_at start window_in_days k).
  { intros k Hk. unfold windows.
    rewrite (nth_indep _ [] (window_at start window_in_days 0))
      by now rewrite length_map, length_seq.
    now rewrite (map_nth (window_at start window_in_days)), seq_nth. }
  split; [|split; [lia|split; [|split; [|split]]]].
  - intros fuel Hfuel. unfold make_date_slices. rewrite Hs, He.
    now rewrite (date_slices_loop_windows end_ window_in_days Hw n start [] fuel).
  - rewrite Hnth by lia. apply window_at_first.
  - intros k Hk. rewrite Hnth by assumption.
    split; [apply window_at_starts | apply window_at_ends].
  - rewrite instant_days_later. lia.
  - rewrite instant_days_later. lia.
Qed.

(** C1 as stated fails on the example of the specification itself: from
    2021-01-01 with 30-day windows to 2021-02-15, the last window does not
    end on 2021-02-15. *)
Lemma last_window_is_not_clipped :
  exists windows end_,
    make_date_slices parse_calendar_date (mkDateTime 1 0 0) 3
      "2021-01-01" 30 (Some "2021-02-15") = Some (Ok windows) /\
    parse_calendar_date "2021-02-15" = Ok end_ /\
    ~ ends_at (last windows []) end_.
Proof.
  eexists. eexists. split; [vm_compute; reflexivity|].
  split; [vm_compute; reflexivity|].
  intros (date_range & Hdr & Hday & _).
  vm_compute in Hdr. inversion Hdr; subst date_range.
  vm_compute in Hday. discriminate Hday.
Qed.

(** C2, as the code has it: from 2021-01-01 with 30-day windows to
    2021-02-15 the function returns two windows, 2021-01-01 to 2021-01-31
    and 2021-01-31 to 2021-03-02. *)
Theorem make_date_slices_example (now : DateTime) (fuel : nat) :
  make_date_slices parse_calendar_date now (3 + fuel)
    "2021-01-01" 30 (Some "2021-02-15")
  = Some (Ok
      [ [("dateRange",
          VDict [ ("start.day", VInt 1); ("start.month", VInt 1);
                  ("start.year", VInt 2021); ("end.day", VInt 31);
                  ("end.month", VInt 1); ("end.year", VInt 2021) ])];
        [("dateRange",
          VDict [ ("start.day", VInt 31); ("start.month", VInt 1);
                  ("start.year", VInt 2021); ("end.day", VInt 2);
                  ("end.month", VInt 3); ("end.year", VInt 2021) ])] ]).
Proof. reflexivity. Qed.

(** C2 as stated: no run returns a second window that ends on 2021-02-15. *)
Lemma example_second_window_ends_in_march :
  ~ exists fuel,
      make_date_slices parse_calendar_date (mkDateTime 1 0 0) fuel
        "2021-01-01" 30 (Some "2021-02-15")
      = Some (Ok
          [ [("dateRange",
              VDict [ ("start.day", VInt 1); ("start.month", VInt 1);
                      ("start.year", VInt 2021); ("end.day", VInt 31);
                      ("end.month", VInt 1); ("end.year", VInt 2021) ])];
            [("dateRange",
              VDict [ ("start.day", VInt 31); ("start.month", VInt 1);
                      ("start.year", VInt 2021); ("end.day", VInt 15);
                      ("end.month", VInt 2); ("end.year", VInt 2021) ])] ]).
Proof.
  intros [fuel H].
  destruct fuel as [|[|[|fuel]]]; vm_compute in H; discriminate H.
Qed.

(** Each turn of the loop moves the cursor forward when the window is
    positive. *)
Lemma cursor_advances (cursor end_ slice_end_date : DateTime) (w : Z) :
  0 < w ->
  dt_ltb cursor end_ = true ->
  add_days cursor w = Ok slice_end_date ->
  instant cursor
  < instant (if dt_leb slice_end_date end_ then slice_end_date else end_).
Proof.
  intros Hw Hlt Hadd. pose proof MICROS_PER_DAY_pos as HD.
  apply add_days_inv in Hadd as (-> & _).
  unfold dt_ltb in Hlt. apply Z.ltb_lt in Hlt.
  destruct (dt_leb (days_later cursor w) end_); [|assumption].
  rewrite instant_days_later. nia.
Qed.

(** With a positive window the loop is left after at most as many turns as
    there are days between the cursor and the end of the calendar. *)
Lemma date_slices_loop_terminates (e : DateTime) (w : Z) :
  0 < w ->
  forall (m : nat) (c : DateTime) (acc : list pydict),
    (Z.to_nat (MAXORDINAL - ordinal c + 1) <= m)%nat ->
    exists r, forall fuel, (m + 2 <= fuel)%nat ->
      date_slices_loop fuel c e w acc = Some r.
Proof.
  intros Hw. induction m as [|m IH]; intros c acc Hm.
  - destruct (dt_ltb c e) eqn:Hlt.
    + destruct (add_days c w) as [c'|ex] eqn:Hadd.
      * apply add_days_inv in Hadd as (_ & Hrange). lia.
      * exists (Raise ex). intros [|fuel] Hfuel; [lia|].
        cbn [date_slices_loop]. now rewrite Hlt, Hadd.
    + exists (Ok acc). intros [|fuel] Hfuel; [lia|].
      now apply date_slices_loop_done.
  - destruct (dt_ltb c e) eqn:Hlt.
    + destruct (add_days c w) as [c'|ex] eqn:Hadd.
      * apply add_days_inv in Hadd as Hinv. destruct Hinv as (-> & Hrange).
        destruct (dt_leb (days_later c w) e) eqn:Hle.
        -- destruct (IH (days_later c w)
                        (acc ++ [[("dateRange",
                                   VDict (date_slice c (days_later c w)))]]))
             as (r & Hr).
           { unfold days_later; cbn [ordinal]. lia. }
           exists r. intros [|fuel] Hfuel; [lia|].
           cbn [date_slices_loop]. rewrite Hlt, Hadd, Hle.
           apply Hr. lia.
        -- eexists. intros [|[|fuel]] Hfuel; [lia|lia|].
           cbn [date_slices_loop]. rewrite Hlt, Hadd, Hle.
           fold (date_slices_loop (S fuel) e e w).
           apply date_slices_loop_done. unfold dt_ltb. apply Z.ltb_irrefl.
      * exists (Raise ex). intros [|fuel] Hfuel; [lia|].
        cbn [date_slices_loop]. now rewrite Hlt, Hadd.
    + exists (Ok acc). intros [|fuel] Hfuel; [lia|].
      now apply date_slices_loop_done.
Qed.

(** C10, as the code has it: for every start date, end date and window of
    at least one day, the function comes to an end (with a list of windows,
    or with the exception raised by the parser or by a date leaving the
    calendar), and the cursor moves strictly forward on every turn of the
    loop. *)
Theorem make_date_slices_terminates
  (parse : string -> result DateTime) (now : DateTime)
  (start_date : string) (window_in_days : Z) (end_date : option string) :
  0 < window_in_days ->
  (exists fuel r, forall fuel', (fuel <= fuel')%nat ->
     make_date_slices parse now fuel' start_date window_in_days end_date
     = Some r) /\
  (forall cursor end_ slice_end_date,
     dt_ltb cursor end_ = true ->
     add_days cursor window_in_days = Ok slice_end_date ->
     instant cursor
     < instant (if dt_leb slice_end_date end_ then slice_end_date else end_)).
Proof.
  intros Hw. split.
  - unfold make_date_slices.
    destruct (parse start_date) as [start|ex].
    + destruct (parse_end parse now end_date) as [end_|ex].
      * destruct (date_slices_loop_terminates end_ window_in_days Hw
                    (Z.to_nat (MAXORDINAL - ordinal start + 1)) start []
                    (Nat.le_refl _)) as (r & Hr).
        exists (Z.to_nat (MAXORDINAL - ordinal start + 1) + 2)%nat, r.
        intros fuel' Hfuel. now apply Hr.
      * exists O, (Raise ex). reflexivity.
    + exists O, (Raise ex). reflexivity.
  - intros cursor end_ slice_end_date. now apply cursor_advances.
Qed.

(** A window of zero days leaves the cursor where it is. *)
Lemma date_slices_loop_zero_window (e : DateTime) :
  forall (fuel : nat) (c : DateTime) (acc : list pydict),
    dt_ltb c e = true ->
    1 <= ordinal c <= MAXORDINAL ->
    date_slices_loop fuel c e 0 acc = None.
Proof.
  induction fuel as [|fuel IH]; intros c acc Hlt Hrange; [reflexivity|].
  cbn [date_slices_loop]. rewrite Hlt.
  rewrite add_days_in_range by lia.
  assert (Hsame : instant (days_later c 0) = instant c)
    by (rewrite instant_days_later; lia).
  unfold dt_leb. rewrite Hsame.
  unfold dt_ltb in Hlt. apply Z.ltb_lt in Hlt as Hlt'.
  destruct (Z.leb_spec (instant c) (instant e)); [|lia].
  apply IH.
  - unfold dt_ltb. now rewrite Hsame.
  - unfold days_later; cbn [ordinal]. lia.
Qed.

(** C10 as stated fails for a window of zero days: no amount of fuel lets
    the function return or raise. *)
Lemma zero_window_never_returns :
  ~ exists fuel r,
      make_date_slices parse_calendar_date (mkDateTime 1 0 0) fuel
        "2021-01-01" 0 (Some "2021-02-15") = Some r.
Proof.
  intros (fuel & r & H).
  unfold make_date_slices in H.
  change (parse_calendar_date "2021-01-01")
    with (Ok (mkDateTime 737791 0 0)) in H.
  change (parse_end parse_calendar_date (mkDateTime 1 0 0) (Some "2021-02-15"))
    with (Ok (mkDateTime 737836 0 0)) in H.
  cbv iota beta in H.
  rewrite date_slices_loop_zero_window in H; [discriminate H|reflexivity|].
  cbn [ordinal]. unfold MAXORDINAL. lia.
Qed.

(** ** Dictionaries *)

Lemma dict_set_set (d : pydict) (k : string) (v1 v2 : value) :
  dict_set (dict_set d k v1) k v2 = dict_set d k v2.
Proof.
  induction d as [|[k' v'] d IH]; simpl.
  - now rewrite String.eqb_refl.
  - destruct (String.eqb k' k) eqn:Hk; simpl; rewrite Hk; [reflexivity|].
    now rewrite IH.
Qed.

(** Writing two keys a second time forgets what was written the first
    time, also when the keys were new the first time. *)
Lemma dict_set_twice (d : pydict) (k1 k2 : string) (a b a' b' : value) :
  k1 <> k2 ->
  dict_set (dict_set (dict_set (dict_set d k1 a) k2 b) k1 a') k2 b'
  = dict_set (dict_set d k1 a') k2 b'.
Proof.
  intros Hne.
  assert (H12 : String.eqb k1 k2 = false) by now apply String.eqb_neq.
  assert (H21 : String.eqb k2 k1 = false)
    by (apply String.eqb_neq; congruence).
  induction d as [|[k' v'] d IH].
  - repeat (simpl; rewrite ?H12, ?H21, ?String.eqb_refl). reflexivity.
  - simpl. destruct (String.eqb k' k1) eqn:Hk1.
    + apply String.eqb_eq in Hk1. subst k'.
      repeat (simpl; rewrite ?H12, ?H21, ?String.eqb_refl).
      now rewrite dict_set_set.
    + destruct (String.eqb k' k2) eqn:Hk2;
        repeat (simpl; rewrite ?Hk1, ?Hk2).
      * now rewrite dict_set_set.
      * now rewrite IH.
Qed.

(** ** Slice builder *)

Lemma date_slices_loop_shape (e : DateTime) (w : Z) :
  forall (fuel : nat) (c : DateTime) (acc out : list pydict),
    date_slices_loop fuel c e w acc = Some (Ok out) ->
    Forall is_date_window acc -> Forall is_date_window out.
Proof.
  induction fuel as [|fuel IH]; intros c acc out Hrun Hacc; [discriminate|].
  cbn [date_slices_loop] in Hrun.
  destruct (dt_ltb c e).
  - destruct (add_days c w) as [c'|ex]; [|discriminate].
    apply IH in Hrun; [assumption|].
    apply Forall_app. split; [assumption|].
    constructor; [|constructor]. eexists. reflexivity.
  - now inversion Hrun; subst.
Qed.

Lemma make_date_slices_shape
  (parse : string -> result DateTime) (now : DateTime) (fuel : nat)
  (start_date : string) (w : Z) (end_date : option string) (out : list pydict) :
  make_date_slices parse now fuel start_date w end_date = Some (Ok out) ->
  Forall is_date_window out.
Proof.
  unfold make_date_slices. intros Hrun.
  destruct (parse start_date); [|discriminate].
  destruct (parse_end parse now end_date); [|discriminate].
  eapply date_slices_loop_shape; eauto.
Qed.

Section SliceBuilderLoops.
Variable base : pydict.

(** What the loops keep true of the shared dictionary [b]: once its
    ["fields"] and ["dateRange"] entries are written, it is the base
    slice with these two entries. *)
Let settled (b : pydict) : Prop :=
  forall f w,
    dict_set (dict_set b "fields" f) "dateRange" w
    = dict_set (dict_set base "fields" f) "dateRange" w.

Lemma add_date_slices_spec (fields_set : list string) :
  forall (windows : list pydict) (b : pydict) (acc : list pydict),
    Forall is_date_window windows ->
    (forall w, dict_set b "dateRange" w
               = dict_set (dict_set base "fields"
                             (VStr (String.concat "," fields_set)))
                          "dateRange" w) ->
    settled b ->
    snd (add_date_slices b acc windows)
    = acc ++ map (slice_of base fields_set) windows
    /\ settled (fst (add_date_slices b acc windows)).
Proof.
  unfold add_date_slices.
  induction windows as [|window windows IH]; intros b acc Hshape Hb Hsettled.
  - simpl. now rewrite app_nil_r.
  - inversion Hshape as [|? ? [v ->] Hshape']; subst.
    cbn [fold_left fst snd].
    change (dict_update b [("dateRange", v)]) with (dict_set b "dateRange" v).
    destruct (IH (dict_set b "dateRange" v)
                 (acc ++ [dict_set b "dateRange" v]) Hshape') as (Hout & Hst).
    + intros w. now rewrite dict_set_set.
    + intros f w. rewrite Hb. apply dict_set_twice. discriminate.
    + split; [|exact Hst].
      rewrite Hout, <- app_assoc. cbn [map app]. now rewrite Hb.
Qed.

Lemma analytics_slices_loop_spec
  (parse : string -> result DateTime) (clock : nat -> DateTime)
  (fuel : nat) (start_date : string) (windows : list pydict) :
  Forall is_date_window windows ->
  forall (chunks : list (list string)) (tick : nat) (b : pydict)
         (acc : list pydict),
    settled b ->
    (forall i, (i < List.length chunks)%nat ->
       make_date_slices parse (clock (tick + i)%nat) fuel start_date
         WINDOW_IN_DAYS None = Some (Ok windows)) ->
    analytics_slices_loop parse clock fuel start_date chunks tick b acc
    = Some (Ok (acc ++ flat_map
                         (fun fields_set => map (slice_of base fields_set) windows)
                         chunks)).
Proof.
  intros Hshape.
  induction chunks as [|fields_set chunks IH]; intros tick b acc Hb Hclock.
  - simpl. now rewrite app_nil_r.
  - cbn [analytics_slices_loop].
    change (dict_update b [("fields", VStr (String.concat "," fields_set))])
      with (dict_set b "fields" (VStr (String.concat "," fields_set))).
    pose proof (Hclock O ltac:(simpl; lia)) as H0.
    rewrite Nat.add_0_r in H0. rewrite H0.
    destruct (add_date_slices_spec fields_set windows
                (dict_set b "fields" (VStr (String.concat "," fields_set)))
                acc Hshape) as (Hout & Hst).
    + intros w. apply Hb.
    + intros f w. rewrite dict_set_set. apply Hb.
    + rewrite IH.
      * rewrite Hout, <- app_assoc. reflexivity.
      * exact Hst.
      * intros i Hi.
        replace (S tick + i)%nat with (tick + S i)%nat by lia.
        apply Hclock. simpl. lia.
Qed.
End SliceBuilderLoops.

(** C7, as the code has it: [make_date_slices] is called once for each
    chunk and reads the clock each time.  When the base slice is built and
    every one of these calls returns the same windows, the slices are,
    chunk after chunk, one per window in the order of the windows: the base
    slice with the chunk's fields and the window's date range.  Their
    number is the number of chunks times the number of windows. *)
Theorem make_analytics_slices_product
  (parse : string -> result DateTime) (clock : nat -> DateTime)
  (make_slice : list value -> pydict -> result pydict)
  (fuel : nat) (records : list value) (key_value_map : pydict)
  (start_date : string)
  (base_slice : pydict) (chunks : list (list string)) (windows : list pydict) :
  make_slice records key_value_map = Ok base_slice ->
  chunk_analytics_fields ANALYTICS_FIELDS_V2 FIELDS_CHUNK_SIZE = Ok chunks ->
  (forall i, (i < List.length chunks)%nat ->
     make_date_slices parse (clock i) fuel start_date WINDOW_IN_DAYS None
     = Some (Ok windows)) ->
  exists slices,
    make_analytics_slices parse clock make_slice fuel records key_value_map
      start_date = Some (Ok slices) /\
    slices = flat_map
               (fun fields_set => map (slice_of base_slice fields_set) windows)
               chunks /\
    List.length slices = (List.length chunks * List.length windows)%nat.
Proof.
  intros Hbase Hchunks Hclock.
  eexists. split; [|split; [reflexivity|]].
  - unfold make_analytics_slices. rewrite Hbase, Hchunks.
    destruct chunks as [|fields_set chunks]; [reflexivity|].
    rewrite (analytics_slices_loop_spec base_slice parse clock fuel start_date
               windows).
    + reflexivity.
    + eapply make_date_slices_shape. apply (Hclock O). simpl. lia.
    + intros f w. reflexivity.
    + intros i Hi. now apply Hclock.
  - clear. induction chunks as [|fields_set chunks IH]; [reflexivity|].
    cbn [flat_map List.length]. rewrite length_app, length_map, IH. lia.
Qed.

(** C7 as stated fails when the clock passes the end of a window between
    two chunks.  From 2021-01-01, a clock that reads 2021-01-31 00:00:00
    for the first chunk and one microsecond later for the others gives the
    first chunk one window and each of the three others two: seven slices
    for four chunks, which is not the number of chunks times the number of
    windows of any of the calls. *)
Lemma clock_passes_a_window_boundary :
  exists slices chunks,
    make_analytics_slices parse_calendar_date
      (fun i => match i with
                | O => mkDateTime 737821 0 0
                | _ => mkDateTime 737821 1 0
                end)
      (fun _ key_value_map => Ok key_value_map)
      4 [] [("campaign", VInt 7)] "2021-01-01" = Some (Ok slices) /\
    chunk_analytics_fields ANALYTICS_FIELDS_V2 FIELDS_CHUNK_SIZE = Ok chunks /\
    List.length chunks = 4%nat /\
    List.length slices = 7%nat /\
    forall i : nat, exists windows,
      make_date_slices parse_calendar_date
        (match i with
         | O => mkDateTime 737821 0 0
         | _ => mkDateTime 737821 1 0
         end)
        4 "2021-01-01" WINDOW_IN_DAYS None = Some (Ok windows) /\
      List.length slices <> (List.length chunks * List.length windows)%nat.
Proof.
  eexists. eexists.
  split; [vm_compute; reflexivity|].
  split; [vm_compute; reflexivity|].
  split; [reflexivity|]. split; [reflexivity|].
  intros [|i]; eexists;
    (split; [vm_compute; reflexivity | vm_compute; discriminate]).
Qed.

(** ** Result merger *)

Lemma hkey_eqb_eq (a b : hkey) : hkey_eqb a b = true <-> a = b.
Proof.
  destruct a, b; simpl; try (split; [discriminate|intros H; discriminate H]);
    try tauto.
  - rewrite Z.eqb_eq. split; congruence.
  - rewrite String.eqb_eq. split; congruence.
Qed.

Lemma hkey_eqb_refl (a : hkey) : hkey_eqb a a = true.
Proof. now apply hkey_eqb_eq. Qed.

Lemma hkey_eqb_neq (a b : hkey) : hkey_eqb a b = false <-> a <> b.
Proof.
  rewrite <- hkey_eqb_eq. destruct (hkey_eqb a b); split; congruence.
Qed.

Lemma hkey_eqb_sym_aux (a b : hkey) : hkey_eqb a b = hkey_eqb b a.
Proof.
  destruct (hkey_eqb b a) eqn:H.
  - apply hkey_eqb_eq in H. subst. apply hkey_eqb_refl.
  - apply hkey_eqb_neq. apply hkey_eqb_neq in H. congruence.
Qed.

Lemma existsb_hkey (hk : hkey) (l : list hkey) :
  existsb (hkey_eqb hk) l = true <-> In hk l.
Proof.
  rewrite existsb_exists. split.
  - intros (x & Hx & Heq). apply hkey_eqb_eq in Heq. now subst.
  - intros Hin. exists hk. split; [assumption|apply hkey_eqb_refl].
Qed.

Lemma for_each_app {S A : Type} (body : S -> A -> result S)
  (xs ys : list A) (s : S) :
  for_each body (xs ++ ys) s = (s' <- for_each body xs s ;; for_each body ys s').
Proof.
  revert s. induction xs as [|x xs IH]; intros s; simpl; [reflexivity|].
  destruct (body s x); simpl; [apply IH|reflexivity].
Qed.

(** The two nested loops visit the records of the flattened input. *)
Lemma for_each_concat {S A : Type} (body : S -> A -> result S)
  (chunks : list (list A)) (s : S) :
  for_each (fun st chunk => for_each body chunk st) chunks s
  = for_each body (List.concat chunks) s.
Proof.
  revert s. induction chunks as [|chunk chunks IH]; intros s; simpl;
    [reflexivity|].
  rewrite for_each_app. destruct (for_each body chunk s); simpl;
    [apply IH|reflexivity].
Qed.

(** *** First sightings *)

Lemma first_seen_snoc (keys : list hkey) (hk : hkey) :
  first_seen (keys ++ [hk])
  = if existsb (hkey_eqb hk) (first_seen keys) then first_seen keys
    else first_seen keys ++ [hk].
Proof. unfold first_seen. now rewrite fold_left_app. Qed.

Lemma first_seen_In (keys : list hkey) (hk : hkey) :
  In hk (first_seen keys) <-> In hk keys.
Proof.
  induction keys as [|k keys IH] using rev_ind.
  - reflexivity.
  - rewrite first_seen_snoc, in_app_iff. simpl.
    destruct (existsb (hkey_eqb k) (first_seen keys)) eqn:Hk.
    + apply existsb_hkey in Hk. rewrite IH in *.
      intuition (subst; auto).
    + rewrite in_app_iff, IH. simpl. tauto.
Qed.

Lemma first_seen_NoDup (keys : list hkey) : NoDup (first_seen keys).
Proof.
  induction keys as [|k keys IH] using rev_ind.
  - constructor.
  - rewrite first_seen_snoc.
    destruct (existsb (hkey_eqb k) (first_seen keys)) eqn:Hk; [assumption|].
    apply NoDup_app; [assumption|repeat constructor; auto|].
    intros x Hx [<-|[]].
    apply existsb_hkey in Hx. congruence.
Qed.

(** *** The merger on values *)

Lemma upsert_present (g : hkey -> pydict) (hk : hkey) (d : pydict) :
  forall keys : list hkey,
    NoDup keys -> In hk keys ->
    upsert (map (fun x => (x, g x)) keys) hk d
    = map (fun x => (x, if hkey_eqb x hk then dict_update (g x) d else g x))
          keys.
Proof.
  induction keys as [|k keys IH]; intros Hnd Hin; [contradiction|].
  inversion Hnd as [|? ? Hnotin Hnd']; subst. simpl.
  destruct (hkey_eqb k hk) eqn:Hk.
  - f_equal. apply map_ext_in. intros x Hx.
    apply hkey_eqb_eq in Hk. subst k.
    destruct (hkey_eqb x hk) eqn:Hx'; [|reflexivity].
    apply hkey_eqb_eq in Hx'. now subst.
  - f_equal. apply IH; [assumption|].
    destruct Hin as [->|Hin]; [|assumption].
    now rewrite hkey_eqb_refl in Hk.
Qed.

Lemma upsert_absent (g : hkey -> pydict) (hk : hkey) (d : pydict) :
  forall keys : list hkey,
    ~ In hk keys ->
    upsert (map (fun x => (x, g x)) keys) hk d
    = map (fun x => (x, g x)) keys ++ [(hk, d)].
Proof.
  induction keys as [|k keys IH]; intros Hnotin; [reflexivity|].
  simpl. destruct (hkey_eqb k hk) eqn:Hk.
  - apply hkey_eqb_eq in Hk. subst. exfalso. apply Hnotin. now left.
  - f_equal. apply IH. intros Hin. apply Hnotin. now right.
Qed.

Lemma record_keys_app (k : string) (xs ys : list pydict) :
  record_keys k (xs ++ ys) = record_keys k xs ++ record_keys k ys.
Proof. unfold record_keys. now rewrite flat_map_app. Qed.

Lemma filter_has_key_nil (k : string) (hk : hkey) (records : list pydict) :
  filter (has_key k hk) records = [] <-> ~ In hk (record_keys k records).
Proof.
  induction records as [|r records IH]; simpl; [tauto|].
  unfold has_key at 1. unfold record_keys. simpl.
  fold (record_keys k records).
  destruct (record_key k r) as [hk'|ex]; simpl.
  - destruct (hkey_eqb hk' hk) eqn:Hk.
    + apply hkey_eqb_eq in Hk. subst. split; [discriminate|].
      intros H. exfalso. apply H. now left.
    + apply hkey_eqb_neq in Hk. rewrite IH. intuition congruence.
  - exact IH.
Qed.

(** A later record with the key of a merged record is written over it;
    a record with another key leaves it alone. *)
Lemma merged_record_snoc (k : string) (records : list pydict) (r : pydict)
  (hk x : hkey) :
  record_key k r = Ok hk ->
  merged_record k (records ++ [r]) x
  = if hkey_eqb x hk
    then (if existsb (hkey_eqb hk) (record_keys k records)
          then dict_update (merged_record k records x) r
          else r)
    else merged_record k records x.
Proof.
  intros Hr. unfold merged_record. rewrite filter_app. simpl.
  unfold has_key at 2. rewrite Hr. rewrite (hkey_eqb_sym_aux hk x).
  destruct (hkey_eqb x hk) eqn:Hx.
  - apply hkey_eqb_eq in Hx. subst x.
    destruct (existsb (hkey_eqb hk) (record_keys k records)) eqn:Hseen.
    + apply existsb_hkey in Hseen.
      destruct (filter (has_key k hk) records) as [|first later] eqn:Hf.
      * apply filter_has_key_nil in Hf. contradiction.
      * simpl. now rewrite fold_left_app.
    + assert (Hnot : ~ In hk (record_keys k records)).
      { intros Hin. apply existsb_hkey in Hin. congruence. }
      apply filter_has_key_nil in Hnot. now rewrite Hnot.
  - now rewrite app_nil_r.
Qed.

(** On values, the loop builds the merged record of every key seen, in
    the order of first sighting. *)
Lemma merge_values_spec (k : string) :
  forall records : list pydict,
    Forall (fun r => exists hk, record_key k r = Ok hk) records ->
    for_each (merge_value k) records []
    = Ok (map (fun hk => (hk, merged_record k records hk))
              (first_seen (record_keys k records))).
Proof.
  induction records as [|r records IH] using rev_ind; intros Hall.
  - reflexivity.
  - apply Forall_app in Hall as (Hall & Hr).
    inversion Hr as [|? ? [hk Hhk] _]; subst.
    rewrite for_each_app, IH by assumption. simpl.
    unfold merge_value. rewrite Hhk. simpl. f_equal.
    rewrite record_keys_app.
    replace (record_keys k [r]) with [hk]
      by (unfold record_keys; simpl; now rewrite Hhk).
    rewrite first_seen_snoc.
    set (keys := record_keys k records).
    destruct (existsb (hkey_eqb hk) (first_seen keys)) eqn:Hseen.
    + apply existsb_hkey in Hseen.
      rewrite upsert_present by auto using first_seen_NoDup.
      apply map_ext_in. intros x Hx. f_equal.
      rewrite (merged_record_snoc k records r hk x Hhk). fold keys.
      assert (Hkeys : existsb (hkey_eqb hk) keys = true)
        by (apply existsb_hkey; now apply (first_seen_In keys hk)).
      now rewrite Hkeys.
    + assert (Hnot : ~ In hk (first_seen keys)).
      { intros Hin. apply existsb_hkey in Hin. congruence. }
      rewrite upsert_absent by assumption.
      rewrite map_app. simpl. f_equal.
      * apply map_ext_in. intros x Hx. f_equal.
        rewrite (merged_record_snoc k records r hk x Hhk).
        destruct (hkey_eqb x hk) eqn:Hxk; [|reflexivity].
        apply hkey_eqb_eq in Hxk. subst. contradiction.
      * do 2 f_equal.
        rewrite (merged_record_snoc k records r hk hk Hhk), hkey_eqb_refl.
        fold keys.
        destruct (existsb (hkey_eqb hk) keys) eqn:Hin; [|reflexivity].
        apply existsb_hkey in Hin. apply (first_seen_In keys hk) in Hin.
        contradiction.
Qed.

(** *** The merger on the heap follows the merger on values *)

Lemma NoDup_app_disjoint {A : Type} (xs ys : list A) (a : A) :
  NoDup (xs ++ ys) -> In a xs -> In a ys -> False.
Proof.
  induction xs as [|x xs IH]; simpl; intros Hnd Hx Hy; [contradiction|].
  inversion Hnd as [|? ? Hnotin Hnd']; subst.
  destruct Hx as [->|Hx].
  - apply Hnotin. apply in_or_app. now right.
  - now apply IH.
Qed.

Lemma heap_set_same (h : heap) (l : loc) (d : pydict) : heap_set h l d l = d.
Proof. unfold heap_set. now rewrite Nat.eqb_refl. Qed.

Lemma heap_set_other (h : heap) (l l' : loc) (d : pydict) :
  l' <> l -> heap_set h l d l' = h l'.
Proof.
  intros Hne. unfold heap_set.
  destruct (Nat.eqb_spec l' l); [contradiction|reflexivity].
Qed.

Lemma view_heap_set (h : heap) (l : loc) (d : pydict) (merged : merged_dict) :
  ~ In l (map snd merged) -> view (heap_set h l d) merged = view h merged.
Proof.
  intros Hnotin. unfold view. apply map_ext_in. intros [hk l'] Hin. simpl.
  rewrite heap_set_other; [reflexivity|].
  intros ->. apply Hnotin. apply in_map_iff. now exists (hk, l).
Qed.

Lemma map_heap_set (h : heap) (l : loc) (d : pydict) (locs : list loc) :
  ~ In l locs -> map (heap_set h l d) locs = map h locs.
Proof.
  intros Hnotin. apply map_ext_in. intros l' Hin.
  apply heap_set_other. intros ->. contradiction.
Qed.

Lemma merged_get_none (h : heap) (hk : hkey) (d : pydict) :
  forall merged : merged_dict,
    merged_get merged hk = None ->
    upsert (view h merged) hk d = view h merged ++ [(hk, d)].
Proof.
  induction merged as [|[hk' l] merged IH]; intros Hget; [reflexivity|].
  simpl in *. destruct (hkey_eqb hk' hk); [discriminate|].
  now rewrite IH.
Qed.

Lemma merged_get_some (h : heap) (hk : hkey) (d : pydict) (t : loc) :
  forall merged : merged_dict,
    NoDup (map snd merged) ->
    merged_get merged hk = Some t ->
    In t (map snd merged) /\
    upsert (view h merged) hk d
    = view (heap_set h t (dict_update (h t) d)) merged.
Proof.
  induction merged as [|[hk' l] merged IH]; intros Hnd Hget; [discriminate|].
  simpl in *. inversion Hnd as [|? ? Hnotin Hnd']; subst.
  destruct (hkey_eqb hk' hk).
  - inversion Hget; subst. split; [now left|].
    rewrite heap_set_same. f_equal. symmetry. now apply view_heap_set.
  - destruct (IH Hnd' Hget) as (Hin & Hup). split; [now right|].
    rewrite Hup. f_equal. f_equal. symmetry. apply heap_set_other.
    intros ->. contradiction.
Qed.

Lemma merge_record_unfold (k : string) (h : heap) (merged : merged_dict)
  (x : loc) :
  merge_record k (h, merged) x
  = (hk <- record_key k (h x) ;;
     match merged_get merged hk with
     | Some t => Ok (heap_set h t (dict_update (h t) (h x)), merged)
     | None => Ok (h, merged ++ [(hk, x)])
     end).
Proof.
  unfold merge_record, record_key. simpl.
  destruct (dict_item (h x) k); simpl; reflexivity.
Qed.

(** When no record is met twice, the loop on the heap does to the records
    it refers to what the loop on values does, and stops on the same
    exception. *)
Lemma merge_records_follow (k : string) :
  forall (locs : list loc) (h : heap) (merged : merged_dict),
    NoDup (map snd merged ++ locs) ->
    match for_each (merge_record k) locs (h, merged) with
    | Ok st =>
        for_each (merge_value k) (map h locs) (view h merged)
        = Ok (view (fst st) (snd st))
    | Raise e =>
        for_each (merge_value k) (map h locs) (view h merged) = Raise e
    end.
Proof.
  induction locs as [|x locs IH]; intros h merged Hnd; [reflexivity|].
  cbn [for_each map]. rewrite merge_record_unfold.
  change (merge_value k (view h merged) (h x))
    with (hk <- record_key k (h x) ;; Ok (upsert (view h merged) hk (h x))).
  destruct (record_key k (h x)) as [hk|ex]; simpl; [|reflexivity].
  assert (Hmerged : NoDup (map snd merged))
    by (now apply NoDup_app_remove_r in Hnd).
  destruct (merged_get merged hk) as [t|] eqn:Hget.
  - destruct (merged_get_some h hk (h x) t merged Hmerged Hget) as (Hin & Hup).
    rewrite Hup.
    assert (Hfresh : ~ In t locs).
    { intros Ht. apply NoDup_remove_1 in Hnd.
      exact (NoDup_app_disjoint _ _ t Hnd Hin Ht). }
    specialize (IH (heap_set h t (dict_update (h t) (h x))) merged).
    rewrite map_heap_set in IH by assumption.
    apply IH. eapply NoDup_remove_1. exact Hnd.
  - rewrite (merged_get_none h hk (h x) merged Hget). cbn [bind].
    replace (view h merged ++ [(hk, h x)]) with (view h (merged ++ [(hk, x)]))
      by (unfold view; now rewrite map_app).
    apply IH. rewrite map_app. simpl. now rewrite <- app_assoc.
Qed.

Lemma merge_records_follow_ok (k : string) (locs : list loc) (h h' : heap)
  (merged' : merged_dict) :
  NoDup locs ->
  for_each (merge_record k) locs (@pair heap merged_dict h [])
  = Ok (h', merged') ->
  for_each (merge_value k) (map h locs) [] = Ok (view h' merged').
Proof.
  intros Hnd Hrun.
  pose proof (merge_records_follow k locs h [] Hnd) as Hfollow.
  now rewrite Hrun in Hfollow.
Qed.

Lemma merge_records_follow_raise (k : string) (locs : list loc) (h : heap)
  (e : exn) :
  NoDup locs ->
  for_each (merge_record k) locs (@pair heap merged_dict h []) = Raise e ->
  for_each (merge_value k) (map h locs) [] = Raise e.
Proof.
  intros Hnd Hrun.
  pose proof (merge_records_follow k locs h [] Hnd) as Hfollow.
  now rewrite Hrun in Hfollow.
Qed.

(** *** Last write wins *)

Lemma dict_get_set (d : pydict) (k f : string) (v : value) :
  dict_get (dict_set d k v) f
  = if String.eqb k f then Some v else dict_get d f.
Proof.
  induction d as [|[k' v'] d IH]; simpl.
  - reflexivity.
  - destruct (String.eqb k' k) eqn:Hk; simpl.
    + apply String.eqb_eq in Hk. subst k'.
      destruct (String.eqb k f); reflexivity.
    + rewrite IH. destruct (String.eqb k' f) eqn:Hf; [|reflexivity].
      apply String.eqb_eq in Hf. subst k'.
      destruct (String.eqb_spec k f) as [->|_]; [|reflexivity].
      now rewrite String.eqb_refl in Hk.
Qed.

Lemma dict_get_absent (d : pydict) (k : string) :
  ~ In k (map fst d) -> dict_get d k = None.
Proof.
  induction d as [|[k' v'] d IH]; simpl; intros Hnotin; [reflexivity|].
  destruct (String.eqb_spec k' k) as [->|_]; [tauto|].
  apply IH. tauto.
Qed.

(** A field of [d.update(other)] has the value [other] gives it, and the
    value it had in [d] when [other] does not have the field. *)
Lemma dict_get_update (d other : pydict) (f : string) :
  well_formed other ->
  dict_get (dict_update d other) f
  = match dict_get other f with
    | Some v => Some v
    | None => dict_get d f
    end.
Proof.
  unfold well_formed, dict_update. revert d.
  induction other as [|[k v] other IH]; intros d Hwf; [reflexivity|].
  simpl in *. inversion Hwf as [|? ? Hnotin Hwf']; subst.
  rewrite IH by assumption. rewrite dict_get_set.
  destruct (String.eqb_spec k f) as [->|_]; [|reflexivity].
  now rewrite dict_get_absent.
Qed.

Lemma dict_set_keys (d : pydict) (k : string) (v : value) :
  map fst (dict_set d k v)
  = if existsb (String.eqb k) (map fst d) then map fst d
    else map fst d ++ [k].
Proof.
  induction d as [|[k' v'] d IH]; simpl; [reflexivity|].
  rewrite (String.eqb_sym k k').
  destruct (String.eqb k' k) eqn:Hk; simpl; [reflexivity|].
  rewrite IH. now destruct (existsb (String.eqb k) (map fst d)).
Qed.

Lemma dict_set_well_formed (d : pydict) (k : string) (v : value) :
  well_formed d -> well_formed (dict_set d k v).
Proof.
  unfold well_formed. intros Hwf. rewrite dict_set_keys.
  destruct (existsb (String.eqb k) (map fst d)) eqn:Hk; [assumption|].
  apply NoDup_app; [assumption|repeat constructor; auto|].
  intros x Hx [<-|[]].
  assert (Hex : existsb (String.eqb k) (map fst d) = true).
  { apply existsb_exists. exists k. split; [assumption|apply String.eqb_refl]. }
  congruence.
Qed.

Lemma dict_update_well_formed (d other : pydict) :
  well_formed d -> well_formed (dict_update d other).
Proof.
  unfold dict_update. revert d.
  induction other as [|[k v] other IH]; intros d Hwf; [assumption|].
  simpl. apply IH. now apply dict_set_well_formed.
Qed.

(** C5: on the example of the specification the merger returns
    [{id:1,a:10,b:100}, {id:2,a:20}].  In general, when the records are
    distinct objects and each has a hashable merge key, the records
    returned are, in the order in which their keys are first seen in the
    flattened input, the first record of each key updated with the later
    records of that key in their order; an update gives a field the value
    of the later record. *)
Theorem merge_chunks_merges
  (h : heap) (chunked_result : list (list loc)) (merge_by_key : string) :
  NoDup (List.concat chunked_result) ->
  (forall l, In l (List.concat chunked_result) ->
             exists hk, record_key merge_by_key (h l) = Ok hk) ->
  merge_chunks_fresh
    [ [ [("id", VInt 1); ("a", VInt 10)]; [("id", VInt 2); ("a", VInt 20)] ];
      [ [("id", VInt 1); ("b", VInt 100)] ] ] "id"
  = Ok [ [("id", VInt 1); ("a", VInt 10); ("b", VInt 100)];
         [("id", VInt 2); ("a", VInt 20)] ]
  /\ (exists h' out,
        merge_chunks h chunked_result merge_by_key = Ok (h', out) /\
        map h' out
        = merge_spec merge_by_key (map h (List.concat chunked_result)) /\
        NoDup (first_seen
                 (record_keys merge_by_key
                    (map h (List.concat chunked_result)))))
  /\ (forall d other f,
        well_formed other ->
        dict_get (dict_update d other) f
        = match dict_get other f with
          | Some v => Some v
          | None => dict_get d f
          end).
Proof.
  intros Hnd Hkeys.
  split; [reflexivity|]. split; [|intros; now apply dict_get_update].
  unfold merge_chunks. rewrite for_each_concat.
  set (locs := List.concat chunked_result) in *.
  assert (Hall : Forall (fun r => exists hk, record_key merge_by_key r = Ok hk)
                        (map h locs)).
  { apply Forall_forall. intros r Hr.
    apply in_map_iff in Hr as (l & <- & Hl). now apply Hkeys. }
  pose proof (merge_values_spec merge_by_key (map h locs) Hall) as Hspec.
  destruct (for_each (merge_record merge_by_key) locs (h, []))
    as [[h' merged]|ex] eqn:Hrun.
  2:{ apply merge_records_follow_raise in Hrun; [|assumption]. congruence. }
  apply merge_records_follow_ok in Hrun; [|assumption].
  rewrite Hspec in Hrun. inversion Hrun as [Hview].
  exists h', (map snd merged). split; [reflexivity|].
  split; [|apply first_seen_NoDup].
  cbn [fst snd] in Hview. unfold merge_spec.
  apply (f_equal (map snd)) in Hview.
  unfold view in Hview. rewrite !map_map in Hview. cbn [snd] in Hview.
  rewrite map_map. symmetry. exact Hview.
Qed.

(** *** Which exception the merger raises *)

Lemma record_key_KeyError (k k' : string) (d : pydict) :
  record_key k d = Raise (KeyError k') <-> k' = k /\ dict_get d k = None.
Proof.
  unfold record_key, dict_item.
  destruct (dict_get d k) as [v|]; simpl.
  - split; [|intros [_ H]; discriminate H].
    destruct v; simpl; discriminate.
  - split; [intros H; inversion H; auto | intros [-> _]; reflexivity].
Qed.

Lemma record_key_update (k : string) (d other : pydict) (hk : hkey) :
  well_formed other ->
  record_key k other = Ok hk ->
  record_key k (dict_update d other) = Ok hk.
Proof.
  intros Hwf. unfold record_key, dict_item.
  rewrite dict_get_update by assumption.
  destruct (dict_get other k); [tauto|discriminate].
Qed.

Lemma merged_get_app (merged : merged_dict) (hk hk' : hkey) (x : loc) :
  merged_get (merged ++ [(hk, x)]) hk'
  = match merged_get merged hk' with
    | Some t => Some t
    | None => if hkey_eqb hk hk' then Some x else None
    end.
Proof.
  induction merged as [|[a l] merged IH]; simpl; [reflexivity|].
  destruct (hkey_eqb a hk'); [reflexivity|apply IH].
Qed.

Section MergeErrors.
Variable k : string.
Variable h0 : heap.

(** What every turn of the loop keeps: the records are dictionaries,
    each has the key (or the lack of one) it came with, and [merged]
    files each record under its key. *)
Let kept (st : heap * merged_dict) : Prop :=
  (forall l, well_formed (fst st l)) /\
  (forall l, record_key k (fst st l) = record_key k (h0 l)) /\
  (forall hk t, merged_get (snd st) hk = Some t ->
                record_key k (fst st t) = Ok hk).

Lemma merge_record_kept (st : heap * merged_dict) (x : loc) (hk : hkey) :
  kept st ->
  record_key k (h0 x) = Ok hk ->
  exists st', merge_record k st x = Ok st' /\ kept st'.
Proof.
  destruct st as [h merged]. intros (Hwf & Hkeys & Hfiled) Hx.
  cbn [fst snd] in *.
  rewrite merge_record_unfold, Hkeys, Hx. cbn [bind].
  destruct (merged_get merged hk) as [t|] eqn:Hget.
  - eexists. split; [reflexivity|]. unfold kept. cbn [fst snd].
    assert (Ht : record_key k (dict_update (h t) (h x)) = Ok hk).
    { apply record_key_update; [apply Hwf|]. now rewrite Hkeys. }
    split; [|split].
    + intros l. unfold heap_set. destruct (Nat.eqb l t); [|apply Hwf].
      apply dict_update_well_formed, Hwf.
    + intros l. unfold heap_set. destruct (Nat.eqb_spec l t) as [->|_];
        [|apply Hkeys].
      rewrite Ht. rewrite <- Hkeys. symmetry. now apply Hfiled.
    + intros hk' t' Hget'. unfold heap_set.
      destruct (Nat.eqb_spec t' t) as [->|_]; [|now apply Hfiled].
      rewrite Ht. apply Hfiled in Hget, Hget'. congruence.
  - eexists. split; [reflexivity|]. unfold kept. cbn [fst snd].
    split; [assumption|split; [assumption|]].
    intros hk' t' Hget'. rewrite merged_get_app in Hget'.
    destruct (merged_get merged hk') as [t|] eqn:Hold.
    + inversion Hget'; subst. now apply Hfiled.
    + destruct (hkey_eqb hk hk') eqn:Heq; [|discriminate].
      apply hkey_eqb_eq in Heq. inversion Hget'; subst.
      now rewrite Hkeys.
Qed.

Lemma merge_record_raises (st : heap * merged_dict) (x : loc) (e : exn) :
  kept st ->
  record_key k (h0 x) = Raise e ->
  merge_record k st x = Raise e.
Proof.
  destruct st as [h merged]. intros (_ & Hkeys & _) Hx. cbn [fst] in Hkeys.
  now rewrite merge_record_unfold, Hkeys, Hx.
Qed.

(** The loop stops at the first record without a usable key, on the
    exception that record gives. *)
Lemma merge_records_error :
  forall (locs : list loc) (st : heap * merged_dict),
    kept st ->
    forall e,
      for_each (merge_record k) locs st = Raise e <->
      exists before l after,
        locs = before ++ l :: after /\
        Forall (fun l' => exists hk, record_key k (h0 l') = Ok hk) before /\
        record_key k (h0 l) = Raise e.
Proof.
  induction locs as [|x locs IH]; intros st Hst e.
  - simpl. split; [discriminate|].
    intros (before & l & after & Heq & _). now destruct before.
  - cbn [for_each].
    destruct (record_key k (h0 x)) as [hk|ex] eqn:Hx.
    + destruct (merge_record_kept st x hk Hst Hx) as (st' & Hstep & Hst').
      rewrite Hstep. cbn [bind]. rewrite (IH st' Hst' e).
      split.
      * intros (before & l & after & -> & Hok & Hl).
        exists (x :: before), l, after.
        split; [reflexivity|]. split; [|assumption].
        constructor; [now exists hk|assumption].
      * intros (before & l & after & Heq & Hok & Hl).
        destruct before as [|b before]; simpl in Heq; inversion Heq; subst.
        -- congruence.
        -- inversion Hok; subst. now exists before, l, after.
    + rewrite (merge_record_raises st x ex Hst Hx). cbn [bind].
      split.
      * intros Heq. inversion Heq; subst.
        exists [], x, locs. repeat split; [constructor|assumption].
      * intros (before & l & after & Heq & Hok & Hl).
        destruct before as [|b before]; simpl in Heq; inversion Heq; subst.
        -- congruence.
        -- inversion Hok as [|? ? [hk Hb] _]; subst. congruence.
Qed.
End MergeErrors.

Lemma bind_raises {A B : Type} (r : result A) (f : A -> B) (e : exn) :
  (x <- r ;; Ok (f x)) = Raise e <-> r = Raise e.
Proof. destruct r; simpl; split; congruence. Qed.

(** C9, as the code has it: the merger raises [KeyError] exactly when, in
    the flattened input, a record lacks the merge key and every record
    before it has a hashable merge key (an unhashable key met first raises
    [TypeError] instead).  When every record has the merge key, no
    [KeyError] is raised. *)
Theorem merge_chunks_key_error
  (h : heap) (chunked_result : list (list loc)) (merge_by_key : string) :
  (forall l, well_formed (h l)) ->
  (merge_chunks h chunked_result merge_by_key = Raise (KeyError merge_by_key)
   <-> exists before l after,
         List.concat chunked_result = before ++ l :: after /\
         Forall (fun l' => exists hk, record_key merge_by_key (h l') = Ok hk)
                before /\
         dict_get (h l) merge_by_key = None)
  /\ ((forall l, In l (List.concat chunked_result) ->
                 dict_get (h l) merge_by_key <> None) ->
      forall key,
        merge_chunks h chunked_result merge_by_key <> Raise (KeyError key)).
Proof.
  intros Hwf.
  assert (Hrun : forall e,
             merge_chunks h chunked_result merge_by_key = Raise e <->
             exists before l after,
               List.concat chunked_result = before ++ l :: after /\
               Forall (fun l' => exists hk,
                                   record_key merge_by_key (h l') = Ok hk)
                      before /\
               record_key merge_by_key (h l) = Raise e).
  { intros e. unfold merge_chunks. rewrite bind_raises, for_each_concat.
    apply (merge_records_error merge_by_key h).
    cbn [fst snd]. split; [assumption|]. split; [reflexivity|].
    intros hk t Hget. discriminate Hget. }
  split.
  - rewrite Hrun. split.
    + intros (before & l & after & Heq & Hok & Hl).
      apply record_key_KeyError in Hl as (_ & Hl).
      now exists before, l, after.
    + intros (before & l & after & Heq & Hok & Hl).
      exists before, l, after. split; [assumption|]. split; [assumption|].
      now apply record_key_KeyError.
  - intros Hall key Hraise.
    apply Hrun in Hraise as (before & l & after & Heq & _ & Hl).
    apply record_key_KeyError in Hl as (_ & Hl).
    apply (Hall l); [|assumption].
    rewrite Heq. apply in_or_app. right. now left.
Qed.

(** C9 as stated fails when a record with an unhashable merge key comes
    before one that lacks the key: the exception is [TypeError]. *)
Lemma unhashable_key_comes_first :
  In [("a", VInt 1)]
     (List.concat [ [ [("id", VList [VInt 1])]; [("a", VInt 1)] ] ]) /\
  dict_get [("a", VInt 1)] "id" = None /\
  merge_chunks_fresh [ [ [("id", VList [VInt 1])]; [("a", VInt 1)] ] ] "id"
  = Raise TypeError /\
  merge_chunks_fresh [ [ [("id", VList [VInt 1])]; [("a", VInt 1)] ] ] "id"
  <> Raise (KeyError "id").
Proof.
  split; [simpl; auto|]. split; [reflexivity|].
  split; [reflexivity|discriminate].
Qed.

(** * The theorems at concrete inputs *)

Lemma chunks_slice_the_catalog_witness :
  0 < FIELDS_CHUNK_SIZE /\
  exists raw chunks,
    raw_chunks ANALYTICS_FIELDS_V2 FIELDS_CHUNK_SIZE = Ok raw /\
    chunk_analytics_fields ANALYTICS_FIELDS_V2 FIELDS_CHUNK_SIZE = Ok chunks /\
    List.concat raw = ANALYTICS_FIELDS_V2.
Proof.
  split; [reflexivity|].
  destruct (chunks_slice_the_catalog ANALYTICS_FIELDS_V2 FIELDS_CHUNK_SIZE)
    as (raw & chunks & Hraw & Hchunks & _ & _ & Hcat & _); [reflexivity|].
  exists raw, chunks. repeat split; assumption.
Defined.

Lemma every_chunk_holds_the_base_fields_witness :
  0 < 2 /\
  exists chunks,
    chunk_analytics_fields ["clicks"; "pivot"; "likes"] 2 = Ok chunks /\
    forall chunk, In chunk chunks ->
      forall b, In b BASE_ANALLYTICS_FIELDS -> In b chunk.
Proof.
  split; [reflexivity|].
  destruct (every_chunk_holds_the_base_fields ["clicks"; "pivot"; "likes"] 2)
    as (raw & chunks & _ & Hchunks & _ & Hbase); [reflexivity|].
  exists chunks. split; assumption.
Defined.

Lemma update_analytics_params_copies_witness :
  exists params,
    update_analytics_params
      [ ("campaign", VInt 7); ("fields", VStr "clicks,pivot");
        ("dateRange",
         VDict [ ("start.day", VInt 1); ("start.month", VInt 1);
                 ("start.year", VInt 2021); ("end.day", VInt 31);
                 ("end.month", VInt 1); ("end.year", VInt 2021) ]) ]
    = Ok params /\
    dict_get params "dateRange.end.day" = Some (VInt 31) /\
    dict_get params "fields" = Some (VStr "clicks,pivot").
Proof.
  destruct (update_analytics_params_copies
              [ ("campaign", VInt 7); ("fields", VStr "clicks,pivot");
                ("dateRange",
                 VDict [ ("start.day", VInt 1); ("start.month", VInt 1);
                         ("start.year", VInt 2021); ("end.day", VInt 31);
                         ("end.month", VInt 1); ("end.year", VInt 2021) ]) ]
              [ ("start.day", VInt 1); ("start.month", VInt 1);
                ("start.year", VInt 2021); ("end.day", VInt 31);
                ("end.month", VInt 1); ("end.year", VInt 2021) ]
              (VInt 1) (VInt 1) (VInt 2021) (VInt 31) (VInt 1) (VInt 2021)
              (VStr "clicks,pivot"))
    as (params & Hrun & _ & _ & _ & _ & Hday & _ & _ & Hfields);
    try reflexivity.
  exists params. repeat split; assumption.
Defined.

Lemma make_date_slices_empty_witness :
  make_date_slices parse_calendar_date (mkDateTime 1 0 0) 1
    "2021-02-15" 30 (Some "2021-01-01") = Some (Ok []).
Proof.
  apply (make_date_slices_empty parse_calendar_date (mkDateTime 1 0 0)
           "2021-02-15" 30 (Some "2021-01-01")
           (mkDateTime 737836 0 0) (mkDateTime 737791 0 0) 0).
  - reflexivity.
  - reflexivity.
  - vm_compute. discriminate.
Defined.

Lemma make_date_slices_windows_witness :
  make_date_slices parse_calendar_date (mkDateTime 1 0 0) 3
    "2021-01-01" 30 (Some "2021-02-15")
  = Some (Ok (map (window_at (mkDateTime 737791 0 0) 30) (seq 0 2))).
Proof.
  destruct (make_date_slices_windows parse_calendar_date (mkDateTime 1 0 0)
              "2021-01-01" 30 (Some "2021-02-15")
              (mkDateTime 737791 0 0) (mkDateTime 737836 0 0))
    as (Hrun & _).
  - reflexivity.
  - reflexivity.
  - reflexivity.
  - reflexivity.
  - vm_compute. discriminate.
  - vm_compute. discriminate.
  - apply Hrun. vm_compute. lia.
Defined.

Lemma make_date_slices_terminates_witness :
  0 < WINDOW_IN_DAYS /\
  exists fuel r, forall fuel', (fuel <= fuel')%nat ->
    make_date_slices parse_calendar_date (mkDateTime 1 0 0) fuel'
      "2021-01-01" WINDOW_IN_DAYS (Some "2021-02-15") = Some r.
Proof.
  split; [reflexivity|].
  apply (make_date_slices_terminates parse_calendar_date (mkDateTime 1 0 0)
           "2021-01-01" WINDOW_IN_DAYS (Some "2021-02-15")).
  reflexivity.
Defined.

Lemma make_analytics_slices_product_witness :
  exists slices,
    make_analytics_slices parse_calendar_date
      (fun _ => mkDateTime 737850 0 0) (fun _ key_value_map => Ok key_value_map)
      4 [] [("campaign", VInt 7)] "2021-01-01" = Some (Ok slices) /\
    List.length slices = 8%nat.
Proof.
  edestruct (make_analytics_slices_product parse_calendar_date
               (fun _ => mkDateTime 737850 0 0)
               (fun _ key_value_map => Ok key_value_map)
               4 [] [("campaign", VInt 7)] "2021-01-01")
    as (slices & Hrun & _ & Hlen).
  - reflexivity.
  - vm_compute. reflexivity.
  - intros i _. vm_compute. reflexivity.
  - exists slices. split; [exact Hrun|]. rewrite Hlen. reflexivity.
Defined.

Lemma merge_chunks_merges_witness :
  exists h' out,
    merge_chunks
      (fst (load O [ [ [("id", VInt 1); ("a", VInt 10)];
                       [("id", VInt 2); ("a", VInt 20)] ];
                     [ [("id", VInt 1); ("b", VInt 100)] ] ] (fun _ => [])))
      [ [0%nat; 1%nat]; [2%nat] ] "id" = Ok (h', out) /\
    map h' out
    = [ [("id", VInt 1); ("a", VInt 10); ("b", VInt 100)];
        [("id", VInt 2); ("a", VInt 20)] ].
Proof.
  destruct (merge_chunks_merges
              (fst (load O [ [ [("id", VInt 1); ("a", VInt 10)];
                               [("id", VInt 2); ("a", VInt 20)] ];
                             [ [("id", VInt 1); ("b", VInt 100)] ] ]
                         (fun _ => [])))
              [ [0%nat; 1%nat]; [2%nat] ] "id")
    as (_ & (h' & out & Hrun & Hout & _) & _).
  - simpl. repeat constructor; simpl; intuition discriminate.
  - simpl. intros l [<-|[<-|[<-|[]]]]; eexists; reflexivity.
  - exists h', out. split; [exact Hrun|]. rewrite Hout. reflexivity.
Defined.

Lemma merge_chunks_key_error_witness :
  merge_chunks
    (fst (load O [ [ [("id", VInt 1); ("a", VInt 10)];
                     [("id", VInt 2); ("a", VInt 20)] ] ] (fun _ => [])))
    [ [0%nat; 1%nat] ] "id" <> Raise (KeyError "id").
Proof.
  assert (Hwf : forall l,
             well_formed
               (fst (load O [ [ [("id", VInt 1); ("a", VInt 10)];
                                [("id", VInt 2); ("a", VInt 20)] ] ]
                          (fun _ => [])) l)).
  { intros [|[|l]]; unfold well_formed; simpl;
      repeat constructor; simpl; intuition discriminate. }
  apply (proj2 (merge_chunks_key_error _ [ [0%nat; 1%nat] ] "id" Hwf)).
  simpl. intros l [<-|[<-|[]]]; discriminate.
Defined.

(** * Further properties of the module *)

(** ** Field chunker: sizes, counts and contents *)

(** A chunk size of zero is refused by [range]; a negative one gives an
    empty range, hence no chunk at all. *)
Theorem chunk_size_not_positive (fields : list string) (M : Z) :
  M <= 0 ->
  chunk_analytics_fields fields M
  = if M =? 0 then Raise ValueError else Ok [].
Proof.
  intros HM. unfold chunk_analytics_fields, raw_chunks, py_range.
  destruct (Z.eqb_spec M 0) as [->|Hne]; [reflexivity|].
  destruct (Z.ltb_spec 0 M) as [|_]; [lia|].
  unfold range_length.
  destruct (Z.leb_spec 0 (Z.of_nat (List.length fields))) as [_|]; [|lia].
  reflexivity.
Qed.

Lemma chunk_size_not_positive_witness :
  - 5 <= 0 /\
  chunk_analytics_fields ANALYTICS_FIELDS_V2 (- 5) = Ok [] /\
  chunk_analytics_fields ANALYTICS_FIELDS_V2 0 = Raise ValueError.
Proof.
  split; [discriminate|]. split.
  - apply (chunk_size_not_positive ANALYTICS_FIELDS_V2 (- 5)). discriminate.
  - reflexivity.
Defined.

Lemma raw_chunks_count (fields : list string) (M : Z) (raw : list (list string)) :
  0 < M ->
  raw_chunks fields M = Ok raw ->
  Z.of_nat (List.length raw) = (Z.of_nat (List.length fields) + M - 1) / M.
Proof.
  intros HM Hraw. rewrite raw_chunks_pieces in Hraw by assumption.
  inversion Hraw; subst raw. rewrite length_map, length_seq.
  destruct (range_length_spec (Z.of_nat (List.length fields)) M
              ltac:(lia) HM) as (Hcover & Htight & Hempty).
  set (n := Z.of_nat (range_length 0 (Z.of_nat (List.length fields)) M)) in *.
  set (len := Z.of_nat (List.length fields)) in *.
  assert (Hn : 0 <= n) by (unfold n; lia).
  assert (Hlen : 0 <= len) by (unfold len; lia).
  apply Z.div_unique with (r := len + M - 1 - M * n).
  - left. destruct (Z.eq_dec len 0) as [H0|H0].
    + rewrite (Hempty H0). lia.
    + specialize (Htight ltac:(lia)). nia.
  - ring.
Qed.

(** The number of chunks is the catalog length divided by the chunk size,
    rounded up; in particular there is no chunk exactly when the catalog is
    empty. *)
Theorem chunk_count (fields : list string) (M : Z) :
  0 < M ->
  exists chunks,
    chunk_analytics_fields fields M = Ok chunks /\
    Z.of_nat (List.length chunks)
    = (Z.of_nat (List.length fields) + M - 1) / M /\
    (chunks = [] <-> fields = []).
Proof.
  intros HM.
  destruct (raw_chunks_shape fields M HM) as (raw & Hraw & _ & Hcat & _ & Hne).
  exists (map (add_base_fields BASE_ANALLYTICS_FIELDS) raw).
  split; [unfold chunk_analytics_fields; now rewrite Hraw|].
  split; [rewrite length_map; now apply raw_chunks_count|].
  split.
  - intros Hnil. destruct raw; [|discriminate]. now rewrite <- Hcat.
  - intros ->. destruct raw as [|c raw]; [reflexivity|].
    inversion Hne; subst. simpl in Hcat.
    apply app_eq_nil in Hcat as (-> & _). simpl in *. lia.
Qed.

Lemma chunk_count_witness :
  0 < FIELDS_CHUNK_SIZE /\
  exists chunks,
    chunk_analytics_fields ANALYTICS_FIELDS_V2 FIELDS_CHUNK_SIZE = Ok chunks /\
    List.length chunks = 4%nat.
Proof.
  split; [reflexivity|].
  destruct (chunk_count ANALYTICS_FIELDS_V2 FIELDS_CHUNK_SIZE)
    as (chunks & Hrun & Hlen & _); [reflexivity|].
  exists chunks. split; [exact Hrun|].
  apply Nat2Z.inj. rewrite Hlen. reflexivity.
Defined.

Lemma chunk_members (fields : list string) (M : Z) (chunks : list (list string)) :
  0 < M ->
  chunk_analytics_fields fields M = Ok chunks ->
  exists raw,
    raw_chunks fields M = Ok raw /\
    chunks = map (fun c => c ++ filter (fun b => negb (str_in b c))
                                       BASE_ANALLYTICS_FIELDS) raw /\
    List.concat raw = fields /\
    Forall (fun c => (0 < List.length c <= Z.to_nat M)%nat) raw.
Proof.
  intros HM Hrun.
  destruct (raw_chunks_shape fields M HM) as (raw & Hraw & _ & Hcat & _ & Hlen).
  exists raw. repeat split; try assumption.
  unfold chunk_analytics_fields in Hrun. rewrite Hraw in Hrun. simpl in Hrun.
  inversion Hrun. apply map_ext. intros c.
  apply add_base_fields_missing, BASE_ANALLYTICS_FIELDS_NoDup.
Qed.

(** No chunk is longer than the chunk size plus the three base fields: with
    the module's size of 17 a request never names more than 20 fields. *)
Theorem chunk_length_bound (fields : list string) (M : Z)
    (chunks : list (list string)) :
  0 < M ->
  chunk_analytics_fields fields M = Ok chunks ->
  Forall (fun chunk =>
            (List.length BASE_ANALLYTICS_FIELDS <= List.length chunk
             <= Z.to_nat M + List.length BASE_ANALLYTICS_FIELDS)%nat) chunks.
Proof.
  intros HM Hrun.
  destruct (chunk_members fields M chunks HM Hrun) as (raw & _ & -> & _ & Hlen).
  apply Forall_forall. intros chunk Hin.
  apply in_map_iff in Hin as (c & <- & Hc).
  rewrite Forall_forall in Hlen. specialize (Hlen c Hc).
  rewrite length_app.
  pose proof (filter_length_le (fun b => negb (str_in b c))
                BASE_ANALLYTICS_FIELDS) as Hle.
  split; [|lia].
  assert (Hall : forall b, In b BASE_ANALLYTICS_FIELDS ->
                 In b (c ++ filter (fun b => negb (str_in b c))
                                   BASE_ANALLYTICS_FIELDS)).
  { intros b Hb. apply in_or_app.
    destruct (str_in b c) eqn:Hbc.
    - left. now apply str_in_In.
    - right. apply filter_In. split; [assumption|]. now rewrite Hbc. }
  rewrite <- length_app.
  apply NoDup_incl_length; [apply BASE_ANALLYTICS_FIELDS_NoDup|].
  exact Hall.
Qed.

Lemma chunk_length_bound_witness :
  exists chunks,
    chunk_analytics_fields ANALYTICS_FIELDS_V2 FIELDS_CHUNK_SIZE = Ok chunks /\
    Forall (fun chunk => (3 <= List.length chunk <= 20)%nat) chunks.
Proof.
  assert (Hrun : exists chunks,
             chunk_analytics_fields ANALYTICS_FIELDS_V2 FIELDS_CHUNK_SIZE
             = Ok chunks) by (eexists; vm_compute; reflexivity).
  destruct Hrun as (chunks & Hrun). exists chunks. split; [exact Hrun|].
  exact (chunk_length_bound ANALYTICS_FIELDS_V2 FIELDS_CHUNK_SIZE chunks
           eq_refl Hrun).
Defined.

Lemma NoDup_piece {A : Type} (m i : nat) (l : list A) :
  NoDup l -> NoDup (piece m l i).
Proof.
  intros Hnd. unfold piece.
  rewrite <- (firstn_skipn (i * m) l) in Hnd.
  apply NoDup_app_remove_l in Hnd.
  rewrite <- (firstn_skipn m (skipn (i * m) l)) in Hnd.
  now apply NoDup_app_remove_r in Hnd.
Qed.

(** A catalog without repeated names gives chunks without repeated names:
    a base field is appended only where the slice lacks it. *)
Theorem chunks_have_no_duplicates (fields : list string) (M : Z)
    (chunks : list (list string)) :
  0 < M ->
  NoDup fields ->
  chunk_analytics_fields fields M = Ok chunks ->
  Forall (@NoDup string) chunks.
Proof.
  intros HM Hnd Hrun.
  destruct (chunk_members fields M chunks HM Hrun) as (raw & Hraw & -> & _ & _).
  rewrite raw_chunks_pieces in Hraw by assumption. inversion Hraw; subst raw.
  apply Forall_forall. intros chunk Hin.
  apply in_map_iff in Hin as (c & <- & Hc).
  apply in_map_iff in Hc as (i & <- & _).
  apply NoDup_app.
  - now apply NoDup_piece.
  - apply NoDup_filter, BASE_ANALLYTICS_FIELDS_NoDup.
  - intros x Hx Hf. apply filter_In in Hf as (_ & Hf).
    apply str_in_In in Hx. rewrite Hx in Hf. discriminate.
Qed.

Lemma chunks_have_no_duplicates_witness :
  exists chunks,
    chunk_analytics_fields ANALYTICS_FIELDS_V2 FIELDS_CHUNK_SIZE = Ok chunks /\
    Forall (@NoDup string) chunks.
Proof.
  assert (Hnd : NoDup ANALYTICS_FIELDS_V2).
  { unfold ANALYTICS_FIELDS_V2.
    repeat (constructor;
            [intros Hin; apply str_in_In in Hin; vm_compute in Hin;
             discriminate|]).
    constructor. }
  assert (Hrun : exists chunks,
             chunk_analytics_fields ANALYTICS_FIELDS_V2 FIELDS_CHUNK_SIZE
             = Ok chunks) by (eexists; vm_compute; reflexivity).
  destruct Hrun as (chunks & Hrun). exists chunks. split; [exact Hrun|].
  exact (chunks_have_no_duplicates ANALYTICS_FIELDS_V2 FIELDS_CHUNK_SIZE chunks
           eq_refl Hnd Hrun).
Defined.

(** The chunker neither drops nor invents a field: every catalog field
    occurs in some chunk, and every field of a chunk comes from the catalog
    or from the base fields. *)
Theorem chunks_cover_the_catalog (fields : list string) (M : Z)
    (chunks : list (list string)) :
  0 < M ->
  chunk_analytics_fields fields M = Ok chunks ->
  (forall f, In f fields -> exists chunk, In chunk chunks /\ In f chunk) /\
  (forall chunk f, In chunk chunks -> In f chunk ->
                   In f fields \/ In f BASE_ANALLYTICS_FIELDS).
Proof.
  intros HM Hrun.
  destruct (chunk_members fields M chunks HM Hrun) as (raw & _ & -> & Hcat & _).
  split.
  - intros f Hf. rewrite <- Hcat in Hf.
    apply in_concat in Hf as (c & Hc & Hfc).
    eexists. split; [apply in_map; exact Hc|].
    apply in_or_app. now left.
  - intros chunk f Hin Hf. apply in_map_iff in Hin as (c & <- & Hc).
    apply in_app_or in Hf as [Hf|Hf].
    + left. rewrite <- Hcat. apply in_concat. now exists c.
    + right. now apply filter_In in Hf as (Hf & _).
Qed.

Lemma chunks_cover_the_catalog_witness :
  exists chunks chunk,
    chunk_analytics_fields ANALYTICS_FIELDS_V2 FIELDS_CHUNK_SIZE = Ok chunks /\
    In chunk chunks /\ In "viralVideoViews" chunk.
Proof.
  assert (Hrun : exists chunks,
             chunk_analytics_fields ANALYTICS_FIELDS_V2 FIELDS_CHUNK_SIZE
             = Ok chunks) by (eexists; vm_compute; reflexivity).
  destruct Hrun as (chunks & Hrun).
  destruct (proj1 (chunks_cover_the_catalog ANALYTICS_FIELDS_V2
                     FIELDS_CHUNK_SIZE chunks eq_refl Hrun) "viralVideoViews")
    as (chunk & Hchunk & Hin).
  - apply str_in_In. reflexivity.
  - now exists chunks, chunk.
Defined.

(** ** Date windower: leaving the calendar *)

Lemma date_slices_loop_overflow (e : DateTime) (w : Z) :
  0 < w ->
  forall (n : nat) (c : DateTime) (acc : list pydict) (fuel : nat),
    window_count c e w = n ->
    ordinal c <= MAXORDINAL ->
    MAXORDINAL < ordinal c + Z.of_nat n * w ->
    (n <= fuel)%nat ->
    date_slices_loop fuel c e w acc = Some (Raise OverflowError).
Proof.
  intros Hw. pose proof MICROS_PER_DAY_pos as HD.
  induction n as [|n IH]; intros c acc fuel Hcount Hmax Hover Hfuel; [lia|].
  destruct fuel as [|fuel]; [lia|].
  assert (Hlt : instant c < instant e).
  { unfold window_count in Hcount.
    destruct (Z.ltb_spec (instant c) (instant e)); [assumption|discriminate]. }
  destruct (window_count_bracket c e w Hw Hlt) as (_ & Hb1 & Hb2).
  rewrite Hcount in Hb1, Hb2.
  rewrite Nat2Z.inj_succ in Hover, Hb1, Hb2.
  assert (Hnw : 0 <= Z.of_nat n * w) by nia.
  cbn [date_slices_loop]. unfold dt_ltb at 1.
  apply Z.ltb_lt in Hlt as Hltb. rewrite Hltb.
  destruct (add_days c w) as [c'|ex] eqn:Hadd.
  - apply add_days_inv in Hadd as (-> & Hrange).
    unfold dt_leb. rewrite instant_days_later.
    destruct (Z.leb_spec (instant c + w * MICROS_PER_DAY) (instant e)) as [Hle|Hgt].
    + apply IH; try (unfold days_later; cbn [ordinal]; lia).
      destruct n as [|n].
      * unfold window_count. rewrite instant_days_later.
        destruct (Z.ltb_spec (instant c + w * MICROS_PER_DAY) (instant e));
          [nia|reflexivity].
      * apply window_count_unique; try assumption;
          rewrite ?instant_days_later; nia.
    + assert (n = O) by nia. subst n.
      change (Z.of_nat 0) with 0 in Hover. lia.
  - unfold add_days in Hadd.
    destruct ((1 <=? ordinal c + w) && (ordinal c + w <=? MAXORDINAL));
      [discriminate|].
    now inversion Hadd.
Qed.

(** When the last window would end after year 9999 the call ends in
    [OverflowError], raised by [start.add]: the windows built before it are
    lost. *)
Theorem make_date_slices_overflow
  (parse : string -> result DateTime) (now : DateTime)
  (start_date : string) (window_in_days : Z) (end_date : option string)
  (start end_ : DateTime) :
  parse start_date = Ok start ->
  parse_end parse now end_date = Ok end_ ->
  0 < window_in_days ->
  ordinal start <= MAXORDINAL ->
  MAXORDINAL
    < ordinal start
      + Z.of_nat (window_count start end_ window_in_days) * window_in_days ->
  forall fuel, (window_count start end_ window_in_days <= fuel)%nat ->
    make_date_slices parse now fuel start_date window_in_days end_date
    = Some (Raise OverflowError).
Proof.
  intros Hstart Hend Hw Hmax Hover fuel Hfuel.
  unfold make_date_slices. rewrite Hstart, Hend.
  now apply (date_slices_loop_overflow end_ window_in_days Hw
               (window_count start end_ window_in_days)).
Qed.

Lemma make_date_slices_overflow_witness :
  make_date_slices parse_calendar_date (mkDateTime 1 0 0) 2
    "9999-11-01" 31 (Some "9999-12-31")
  = Some (Raise OverflowError).
Proof.
  apply (make_date_slices_overflow parse_calendar_date (mkDateTime 1 0 0)
           "9999-11-01" 31 (Some "9999-12-31")
           (mkDateTime 3651999 0 0) (mkDateTime 3652059 0 0)).
  - reflexivity.
  - reflexivity.
  - reflexivity.
  - vm_compute. discriminate.
  - vm_compute. reflexivity.
  - vm_compute. lia.
Defined.

Lemma date_slices_loop_backwards (e : DateTime) (w : Z) :
  w < 0 ->
  forall (m : nat) (c : DateTime) (acc : list pydict) (fuel : nat),
    instant c < instant e ->
    (Z.to_nat (ordinal c) <= m)%nat ->
    (m < fuel)%nat ->
    date_slices_loop fuel c e w acc = Some (Raise OverflowError).
Proof.
  intros Hw. pose proof MICROS_PER_DAY_pos as HD.
  induction m as [|m IH]; intros c acc fuel Hlt Hm Hfuel;
    (destruct fuel as [|fuel]; [lia|]);
    cbn [date_slices_loop]; unfold dt_ltb at 1;
    apply Z.ltb_lt in Hlt as Hltb; rewrite Hltb;
    (destruct (add_days c w) as [c'|ex] eqn:Hadd;
     [ apply add_days_inv in Hadd as (-> & Hrange)
     | unfold add_days in Hadd;
       destruct ((1 <=? ordinal c + w) && (ordinal c + w <=? MAXORDINAL));
       [discriminate | now inversion Hadd] ]).
  - lia.
  - assert (Hback : instant (days_later c w) < instant c)
      by (rewrite instant_days_later; nia).
    unfold dt_leb.
    destruct (Z.leb_spec (instant (days_later c w)) (instant e)); [|lia].
    apply IH; [lia | unfold days_later; cbn [ordinal]; lia | lia].
Qed.

(** A negative window moves the cursor backwards, away from the end date:
    when the start is before the end the call never returns a list, it ends
    in [OverflowError] once the cursor leaves year 1. *)
Theorem make_date_slices_negative_window
  (parse : string -> result DateTime) (now : DateTime)
  (start_date : string) (window_in_days : Z) (end_date : option string)
  (start end_ : DateTime) :
  parse start_date = Ok start ->
  parse_end parse now end_date = Ok end_ ->
  instant start < instant end_ ->
  window_in_days < 0 ->
  forall fuel, (Z.to_nat (ordinal start) < fuel)%nat ->
    make_date_slices parse now fuel start_date window_in_days end_date
    = Some (Raise OverflowError).
Proof.
  intros Hstart Hend Hlt Hw fuel Hfuel.
  unfold make_date_slices. rewrite Hstart, Hend.
  now apply (date_slices_loop_backwards end_ window_in_days Hw
               (Z.to_nat (ordinal start))).
Qed.

Lemma make_date_slices_negative_window_witness :
  make_date_slices parse_calendar_date (mkDateTime 1 0 0) 800
    "0003-01-01" (- 1) (Some "0003-02-15")
  = Some (Raise OverflowError).
Proof.
  apply (make_date_slices_negative_window parse_calendar_date (mkDateTime 1 0 0)
           "0003-01-01" (- 1) (Some "0003-02-15")
           (mkDateTime 731 0 0) (mkDateTime 776 0 0)).
  - reflexivity.
  - reflexivity.
  - reflexivity.
  - reflexivity.
  - vm_compute. lia.
Defined.

(** ** Slice builder: what every slice holds *)

Lemma date_slices_loop_dates (e : DateTime) (w : Z) :
  forall (fuel : nat) (c : DateTime) (acc out : list pydict),
    date_slices_loop fuel c e w acc = Some (Ok out) ->
    Forall is_window_of_dates acc -> Forall is_window_of_dates out.
Proof.
  induction fuel as [|fuel IH]; intros c acc out Hrun Hacc; [discriminate|].
  cbn [date_slices_loop] in Hrun.
  destruct (dt_ltb c e).
  - destruct (add_days c w) as [c'|ex]; [|discriminate].
    apply IH in Hrun; [assumption|].
    apply Forall_app. split; [assumption|].
    constructor; [|constructor]. now exists c, c'.
  - inversion Hrun; now subst.
Qed.

Lemma make_date_slices_dates
  (parse : string -> result DateTime) (now : DateTime) (fuel : nat)
  (start_date : string) (w : Z) (end_date : option string) (out : list pydict) :
  make_date_slices parse now fuel start_date w end_date = Some (Ok out) ->
  Forall is_window_of_dates out.
Proof.
  unfold make_date_slices. intros Hrun.
  destruct (parse start_date); [|discriminate].
  destruct (parse_end parse now end_date); [|discriminate].
  eapply date_slices_loop_dates; eauto.
Qed.

Section SliceBuilderInvariant.
Variable parse : string -> result DateTime.
Variable clock : nat -> DateTime.
Variable fuel : nat.
Variable start_date : string.
Variable base : pydict.
Variable all_chunks : list (list string).

(** The shared dictionary differs from the base slice at most in the two
    keys the loops write. *)
Let keeps (b : pydict) : Prop :=
  forall key, key <> "fields" -> key <> "dateRange" ->
              dict_get b key = dict_get base key.

(** The dates of a window returned by one of the calls of
    [make_date_slices], at some reading of the clock. *)
Let from_a_call (a b : DateTime) : Prop :=
  exists i windows,
    make_date_slices parse (clock i) fuel start_date WINDOW_IN_DAYS None
    = Some (Ok windows) /\
    In [("dateRange", VDict (date_slice a b))] windows.

Let ready (s : pydict) : Prop :=
  keeps s /\
  exists chunk a b,
    In chunk all_chunks /\
    dict_get s "fields" = Some (VStr (String.concat "," chunk)) /\
    dict_get s "dateRange" = Some (VDict (date_slice a b)) /\
    from_a_call a b.

Lemma add_date_slices_ready (chunk : list string) :
  In chunk all_chunks ->
  forall (windows : list pydict) (b : pydict) (acc : list pydict),
    Forall (fun w => exists d1 d2,
                       w = [("dateRange", VDict (date_slice d1 d2))] /\
                       from_a_call d1 d2) windows ->
    keeps b ->
    dict_get b "fields" = Some (VStr (String.concat "," chunk)) ->
    Forall ready acc ->
    Forall ready (snd (add_date_slices b acc windows))
    /\ keeps (fst (add_date_slices b acc windows)).
Proof.
  intros Hchunk. unfold add_date_slices.
  induction windows as [|w windows IH]; intros b acc Hws Hkeeps Hfields Hacc.
  - now split.
  - inversion Hws as [|? ? (d1 & d2 & -> & Hcall) Hws']; subst.
    cbn [fold_left fst snd].
    change (dict_update b [("dateRange", VDict (date_slice d1 d2))])
      with (dict_set b "dateRange" (VDict (date_slice d1 d2))).
    assert (Hkeeps' : keeps (dict_set b "dateRange" (VDict (date_slice d1 d2)))).
    { intros key Hf Hd. rewrite dict_get_set.
      destruct (String.eqb_spec "dateRange" key) as [<-|_]; [congruence|].
      now apply Hkeeps. }
    apply IH; try assumption.
    + rewrite dict_get_set. exact Hfields.
    + apply Forall_app. split; [assumption|].
      constructor; [|constructor]. split; [assumption|].
      exists chunk, d1, d2. split; [assumption|].
      rewrite !dict_get_set. repeat split; assumption.
Qed.

Lemma analytics_slices_loop_ready :
  forall (chunks : list (list string)) (tick : nat) (b : pydict)
         (acc out : list pydict),
    incl chunks all_chunks ->
    keeps b ->
    Forall ready acc ->
    analytics_slices_loop parse clock fuel start_date chunks tick b acc
    = Some (Ok out) ->
    Forall ready out.
Proof.
  induction chunks as [|chunk chunks IH];
    intros tick b acc out Hincl Hkeeps Hacc Hrun.
  - simpl in Hrun. inversion Hrun; now subst.
  - cbn [analytics_slices_loop] in Hrun.
    destruct (make_date_slices parse (clock tick) fuel start_date
                WINDOW_IN_DAYS None) as [[windows|ex]|] eqn:Hws;
      try discriminate.
    assert (Hdates : Forall (fun w => exists d1 d2,
                               w = [("dateRange", VDict (date_slice d1 d2))] /\
                               from_a_call d1 d2) windows).
    { pose proof (make_date_slices_dates _ _ _ _ _ _ _ Hws) as Hshape.
      rewrite Forall_forall in *. intros w Hw.
      destruct (Hshape w Hw) as (d1 & d2 & ->).
      exists d1, d2. split; [reflexivity|]. now exists tick, windows. }
    change (dict_update b [("fields", VStr (String.concat "," chunk))])
      with (dict_set b "fields" (VStr (String.concat "," chunk))) in Hrun.
    destruct (add_date_slices_ready chunk (Hincl chunk (or_introl eq_refl))
                windows
                (dict_set b "fields" (VStr (String.concat "," chunk))) acc)
      as (Hready & Hkeeps'); try assumption.
    + intros key Hf Hd. rewrite dict_get_set.
      destruct (String.eqb_spec "fields" key) as [<-|_]; [congruence|].
      now apply Hkeeps.
    + now rewrite dict_get_set.
    + eapply IH; [| | |exact Hrun]; try assumption.
      intros c Hc. apply Hincl. now right.
Qed.
End SliceBuilderInvariant.

Lemma make_analytics_slices_ready
  (parse : string -> result DateTime) (clock : nat -> DateTime)
  (make_slice : list value -> pydict -> result pydict)
  (fuel : nat) (records : list value) (key_value_map : pydict)
  (start_date : string) (slices : list pydict) :
  make_analytics_slices parse clock make_slice fuel records key_value_map
    start_date = Some (Ok slices) ->
  exists base chunks,
    make_slice records key_value_map = Ok base /\
    chunk_analytics_fields ANALYTICS_FIELDS_V2 FIELDS_CHUNK_SIZE = Ok chunks /\
    forall s, In s slices ->
      (forall key, key <> "fields" -> key <> "dateRange" ->
                   dict_get s key = dict_get base key) /\
      exists chunk a b,
        In chunk chunks /\
        dict_get s "fields" = Some (VStr (String.concat "," chunk)) /\
        dict_get s "dateRange" = Some (VDict (date_slice a b)) /\
        exists i windows,
          make_date_slices parse (clock i) fuel start_date WINDOW_IN_DAYS None
          = Some (Ok windows) /\
          In [("dateRange", VDict (date_slice a b))] windows.
Proof.
  unfold make_analytics_slices. intros Hrun.
  destruct (make_slice records key_value_map) as [base|ex]; [|discriminate].
  destruct (chunk_analytics_fields ANALYTICS_FIELDS_V2 FIELDS_CHUNK_SIZE)
    as [chunks|ex]; [|discriminate].
  exists base, chunks. split; [reflexivity|]. split; [reflexivity|].
  apply Forall_forall.
  eapply (analytics_slices_loop_ready parse clock fuel start_date base chunks);
    [| | |exact Hrun].
  - apply incl_refl.
  - intros key _ _. reflexivity.
  - constructor.
Qed.

Lemma update_analytics_params_ready (s : pydict) (fields : string)
    (a b : DateTime) :
  dict_get s "dateRange" = Some (VDict (date_slice a b)) ->
  dict_get s "fields" = Some (VStr fields) ->
  update_analytics_params s = Ok (request_params fields a b).
Proof.
  intros Hdr Hf. unfold update_analytics_params, dict_item.
  rewrite Hdr, Hf. reflexivity.
Qed.

(** Builder and flattener fit together.  Every slice
    [make_analytics_slices] returns holds, under ["fields"], the joined
    fields of one of the chunks and, under ["dateRange"], the date range of
    a window that one of its calls of [make_date_slices] returned; and
    [update_analytics_params] accepts the slice and answers with these very
    fields and the six components of this very date range. *)
Theorem slices_flatten_to_requests
  (parse : string -> result DateTime) (clock : nat -> DateTime)
  (make_slice : list value -> pydict -> result pydict)
  (fuel : nat) (records : list value) (key_value_map : pydict)
  (start_date : string) (slices : list pydict) :
  make_analytics_slices parse clock make_slice fuel records key_value_map
    start_date = Some (Ok slices) ->
  exists chunks,
    chunk_analytics_fields ANALYTICS_FIELDS_V2 FIELDS_CHUNK_SIZE = Ok chunks /\
    forall s, In s slices ->
      exists chunk a b,
        In chunk chunks /\
        dict_get s "fields" = Some (VStr (String.concat "," chunk)) /\
        dict_get s "dateRange" = Some (VDict (date_slice a b)) /\
        (exists i windows,
           make_date_slices parse (clock i) fuel start_date WINDOW_IN_DAYS None
           = Some (Ok windows) /\
           In [("dateRange", VDict (date_slice a b))] windows) /\
        update_analytics_params s
        = Ok (request_params (String.concat "," chunk) a b).
Proof.
  intros Hrun.
  destruct (make_analytics_slices_ready _ _ _ _ _ _ _ _ Hrun)
    as (base & chunks & _ & Hchunks & Hall).
  exists chunks. split; [assumption|]. intros s Hs.
  destruct (Hall s Hs) as (_ & chunk & a & b & Hin & Hf & Hdr & Hcall).
  exists chunk, a, b. repeat split; try assumption.
  now apply update_analytics_params_ready.
Qed.

(** Every slice carries the base slice along: apart from ["fields"] and
    ["dateRange"], which the builder writes, a key has in the slice the
    value [make_slice] gave it (and none when [make_slice] gave none). *)
Theorem slices_keep_the_base_slice
  (parse : string -> result DateTime) (clock : nat -> DateTime)
  (make_slice : list value -> pydict -> result pydict)
  (fuel : nat) (records : list value) (key_value_map : pydict)
  (start_date : string) (base : pydict) (slices : list pydict) :
  make_slice records key_value_map = Ok base ->
  make_analytics_slices parse clock make_slice fuel records key_value_map
    start_date = Some (Ok slices) ->
  forall s key, In s slices -> key <> "fields" -> key <> "dateRange" ->
    dict_get s key = dict_get base key.
Proof.
  intros Hbase Hrun s key Hs Hf Hd.
  destruct (make_analytics_slices_ready _ _ _ _ _ _ _ _ Hrun)
    as (base' & chunks & Hbase' & _ & Hall).
  rewrite Hbase in Hbase'. inversion Hbase'; subst base'.
  now apply (proj1 (Hall s Hs)).
Qed.

Lemma slices_flatten_to_requests_witness :
  exists slices chunks,
    make_analytics_slices parse_calendar_date
      (fun _ => mkDateTime 737850 0 0) (fun _ key_value_map => Ok key_value_map)
      4 [] [("campaign", VInt 7)] "2021-01-01" = Some (Ok slices) /\
    chunk_analytics_fields ANALYTICS_FIELDS_V2 FIELDS_CHUNK_SIZE = Ok chunks /\
    slices <> [] /\
    forall s, In s slices ->
      exists chunk a b,
        In chunk chunks /\
        dict_get s "fields" = Some (VStr (String.concat "," chunk)) /\
        dict_get s "dateRange" = Some (VDict (date_slice a b)) /\
        (exists i windows,
           make_date_slices parse_calendar_date
             ((fun _ : nat => mkDateTime 737850 0 0) i) 4 "2021-01-01"
             WINDOW_IN_DAYS None = Some (Ok windows) /\
           In [("dateRange", VDict (date_slice a b))] windows) /\
        update_analytics_params s
        = Ok (request_params (String.concat "," chunk) a b).
Proof.
  assert (Hrun : exists slices,
             make_analytics_slices parse_calendar_date
               (fun _ => mkDateTime 737850 0 0)
               (fun _ key_value_map => Ok key_value_map)
               4 [] [("campaign", VInt 7)] "2021-01-01" = Some (Ok slices)
             /\ slices <> []).
  { vm_compute. eexists. split; [reflexivity|discriminate]. }
  destruct Hrun as (slices & Hrun & Hne).
  destruct (slices_flatten_to_requests _ _ _ _ _ _ _ _ Hrun)
    as (chunks & Hchunks & Hall).
  exists slices, chunks. repeat split; assumption.
Defined.

Lemma slices_keep_the_base_slice_witness :
  exists slices,
    make_analytics_slices parse_calendar_date
      (fun _ => mkDateTime 737850 0 0) (fun _ key_value_map => Ok key_value_map)
      4 [] [("campaign", VInt 7)] "2021-01-01" = Some (Ok slices) /\
    slices <> [] /\
    forall s, In s slices -> dict_get s "campaign" = Some (VInt 7).
Proof.
  assert (Hrun : exists slices,
             make_analytics_slices parse_calendar_date
               (fun _ => mkDateTime 737850 0 0)
               (fun _ key_value_map => Ok key_value_map)
               4 [] [("campaign", VInt 7)] "2021-01-01" = Some (Ok slices)
             /\ slices <> []).
  { vm_compute. eexists. split; [reflexivity|discriminate]. }
  destruct Hrun as (slices & Hrun & Hne).
  exists slices. split; [exact Hrun|]. split; [exact Hne|].
  intros s Hs.
  apply (slices_keep_the_base_slice parse_calendar_date
           (fun _ => mkDateTime 737850 0 0)
           (fun _ key_value_map => Ok key_value_map)
           4 [] [("campaign", VInt 7)] "2021-01-01"
           [("campaign", VInt 7)] slices eq_refl Hrun s "campaign" Hs);
    discriminate.
Defined.

(** ** Slice builder: termination and start dates not in the past *)

Lemma make_date_slices_settles
  (parse : string -> result DateTime) (start_date : string) (w : Z)
  (end_date : option string) :
  0 < w ->
  exists F, forall now, exists r, forall fuel, (F <= fuel)%nat ->
    make_date_slices parse now fuel start_date w end_date = Some r.
Proof.
  intros Hw. unfold make_date_slices.
  destruct (parse start_date) as [start|ex].
  - exists (Z.to_nat (MAXORDINAL - ordinal start + 1) + 2)%nat. intros now.
    destruct (parse_end parse now end_date) as [end_|ex].
    + destruct (date_slices_loop_terminates end_ w Hw
                  (Z.to_nat (MAXORDINAL - ordinal start + 1)) start []
                  (Nat.le_refl _)) as (r & Hr).
      exists r. exact Hr.
    + exists (Raise ex). reflexivity.
  - exists O. intros _. exists (Raise ex). reflexivity.
Qed.

Lemma analytics_slices_loop_settles
  (parse : string -> result DateTime) (clock : nat -> DateTime)
  (start_date : string) (F : nat) :
  (forall now, exists r, forall fuel, (F <= fuel)%nat ->
     make_date_slices parse now fuel start_date WINDOW_IN_DAYS None = Some r) ->
  forall (chunks : list (list string)) (tick : nat) (b : pydict)
         (acc : list pydict),
    exists r, forall fuel, (F <= fuel)%nat ->
      analytics_slices_loop parse clock fuel start_date chunks tick b acc
      = Some r.
Proof.
  intros Hsettles.
  induction chunks as [|chunk chunks IH]; intros tick b acc.
  - exists (Ok acc). reflexivity.
  - destruct (Hsettles (clock tick)) as ([windows|ex] & Hr).
    + destruct (IH (S tick)
                  (fst (add_date_slices
                          (dict_update b
                             [("fields", VStr (String.concat "," chunk))])
                          acc windows))
                  (snd (add_date_slices
                          (dict_update b
                             [("fields", VStr (String.concat "," chunk))])
                          acc windows))) as (r & Hrest).
      exists r. intros fuel Hfuel. cbn [analytics_slices_loop].
      rewrite (Hr fuel Hfuel). now apply Hrest.
    + exists (Raise ex). intros fuel Hfuel. cbn [analytics_slices_loop].
      now rewrite (Hr fuel Hfuel).
Qed.

(** Whatever the records, the start date and the readings of the clock,
    [make_analytics_slices] comes to an end: its window is the constant
    [WINDOW_IN_DAYS], which is positive. *)
Theorem make_analytics_slices_terminates
  (parse : string -> result DateTime) (clock : nat -> DateTime)
  (make_slice : list value -> pydict -> result pydict)
  (records : list value) (key_value_map : pydict) (start_date : string) :
  exists fuel r, forall fuel', (fuel <= fuel')%nat ->
    make_analytics_slices parse clock make_slice fuel' records key_value_map
      start_date = Some r.
Proof.
  unfold make_analytics_slices.
  destruct (make_slice records key_value_map) as [base|ex];
    [|exists O, (Raise ex); reflexivity].
  destruct (chunk_analytics_fields ANALYTICS_FIELDS_V2 FIELDS_CHUNK_SIZE)
    as [chunks|ex]; [|exists O, (Raise ex); reflexivity].
  destruct (make_date_slices_settles parse start_date WINDOW_IN_DAYS None eq_refl)
    as (F & HF).
  destruct (analytics_slices_loop_settles parse clock start_date F HF
              chunks O base []) as (r & Hr).
  now exists F, r.
Qed.

Lemma analytics_slices_loop_future
  (parse : string -> result DateTime) (clock : nat -> DateTime)
  (start_date : string) (start : DateTime) (fuel : nat) :
  parse start_date = Ok start ->
  (forall i, instant (clock i) <= instant start) ->
  forall (chunks : list (list string)) (tick : nat) (b : pydict)
         (acc : list pydict),
    analytics_slices_loop parse clock (S fuel) start_date chunks tick b acc
    = Some (Ok acc).
Proof.
  intros Hstart Hclock.
  induction chunks as [|chunk chunks IH]; intros tick b acc; [reflexivity|].
  cbn [analytics_slices_loop]. unfold make_date_slices, parse_end.
  rewrite Hstart, date_slices_loop_done.
  - cbn [add_date_slices fold_left fst snd]. apply IH.
  - unfold dt_ltb. apply Z.ltb_ge. apply Hclock.
Qed.

(** A start date that is not in the past gives no slice at all, and no
    error: each call of [make_date_slices] finds its loop condition false. *)
Theorem make_analytics_slices_future_start
  (parse : string -> result DateTime) (clock : nat -> DateTime)
  (make_slice : list value -> pydict -> result pydict)
  (fuel : nat) (records : list value) (key_value_map : pydict)
  (start_date : string) (base : pydict) (start : DateTime) :
  make_slice records key_value_map = Ok base ->
  parse start_date = Ok start ->
  (forall i, instant (clock i) <= instant start) ->
  make_analytics_slices parse clock make_slice (S fuel) records key_value_map
    start_date = Some (Ok []).
Proof.
  intros Hbase Hstart Hclock. unfold make_analytics_slices. rewrite Hbase.
  destruct (chunk_analytics_fields ANALYTICS_FIELDS_V2 FIELDS_CHUNK_SIZE)
    as [chunks|ex] eqn:Hchunks; [|vm_compute in Hchunks; discriminate].
  now apply (analytics_slices_loop_future parse clock start_date start).
Qed.

Lemma make_analytics_slices_future_start_witness :
  make_analytics_slices parse_calendar_date
    (fun _ => mkDateTime 737850 0 0) (fun _ key_value_map => Ok key_value_map)
    1 [] [("campaign", VInt 7)] "2021-03-01" = Some (Ok []).
Proof.
  apply (make_analytics_slices_future_start parse_calendar_date
           (fun _ => mkDateTime 737850 0 0)
           (fun _ key_value_map => Ok key_value_map)
           0 [] [("campaign", VInt 7)] "2021-03-01"
           [("campaign", VInt 7)] (mkDateTime 737850 0 0)).
  - reflexivity.
  - reflexivity.
  - intros _. vm_compute. discriminate.
Defined.

(** ** Parameter flattener: when it fails, and with what *)

Ltac flatten_lookups dr H :=
  repeat match type of H with
         | context [dict_get dr ?key] =>
             let E := fresh "Hcomponent" in
             destruct (dict_get dr key) eqn:E; cbn [bind] in H;
             try discriminate H
         end.

(** The flattener answers only for complete slices: when it returns, the
    slice has a ["dateRange"] dictionary with its six components and a
    ["fields"] entry, and the answer is built from exactly these values. *)
Theorem update_analytics_params_only_complete
  (stream_slice params : pydict) :
  update_analytics_params stream_slice = Ok params ->
  exists date_range start_day start_month start_year
         end_day end_month end_year fields,
    dict_get stream_slice "dateRange" = Some (VDict date_range) /\
    dict_get date_range "start.day" = Some start_day /\
    dict_get date_range "start.month" = Some start_month /\
    dict_get date_range "start.year" = Some start_year /\
    dict_get date_range "end.day" = Some end_day /\
    dict_get date_range "end.month" = Some end_month /\
    dict_get date_range "end.year" = Some end_year /\
    dict_get stream_slice "fields" = Some fields /\
    params = [ ("dateRange.start.day", start_day);
               ("dateRange.start.month", start_month);
               ("dateRange.start.year", start_year);
               ("dateRange.end.day", end_day);
               ("dateRange.end.month", end_month);
               ("dateRange.end.year", end_year);
               ("fields", fields) ].
Proof.
  unfold update_analytics_params, dict_item. intros Hrun.
  destruct (dict_get stream_slice "dateRange") as [[| | | | |dr]|];
    cbn [bind subscript] in Hrun; try discriminate Hrun.
  unfold dict_item in Hrun. flatten_lookups dr Hrun.
  destruct (dict_get stream_slice "fields") as [fields|];
    cbn [bind] in Hrun; [|discriminate Hrun].
  inversion Hrun.
  exists dr. do 7 eexists. repeat split; eassumption || reflexivity.
Qed.

Lemma update_analytics_params_only_complete_witness :
  exists fields,
    dict_get [("campaign", VInt 7); ("fields", VStr "clicks,pivot");
              ("dateRange", VDict (date_slice (mkDateTime 737791 0 0)
                                              (mkDateTime 737821 0 0)))]
             "fields" = Some fields.
Proof.
  destruct (update_analytics_params_only_complete
              [("campaign", VInt 7); ("fields", VStr "clicks,pivot");
               ("dateRange", VDict (date_slice (mkDateTime 737791 0 0)
                                               (mkDateTime 737821 0 0)))]
              (request_params "clicks,pivot" (mkDateTime 737791 0 0)
                                             (mkDateTime 737821 0 0))
              eq_refl)
    as (dr & sd & sm & sy & ed & em & ey & fields & _ & _ & _ & _ & _ & _ & _
        & Hfields & _).
  exists fields. exact Hfields.
Defined.

(** [KeyError "dateRange"] means exactly that the slice has no
    ["dateRange"] entry: it is the first subscript evaluated, so it is
    reported also when ["fields"] is missing as well. *)
Theorem update_analytics_params_missing_date_range (stream_slice : pydict) :
  update_analytics_params stream_slice = Raise (KeyError "dateRange")
  <-> dict_get stream_slice "dateRange" = None.
Proof.
  unfold update_analytics_params, dict_item. split.
  - intros Hrun.
    destruct (dict_get stream_slice "dateRange") as [[| | | | |dr]|];
      cbn [bind subscript] in Hrun; try discriminate Hrun; [|reflexivity].
    unfold dict_item in Hrun. flatten_lookups dr Hrun.
    destruct (dict_get stream_slice "fields"); discriminate Hrun.
  - intros ->. reflexivity.
Qed.

(** [TypeError] means exactly that ["dateRange"] is present but is not a
    dictionary. *)
Theorem update_analytics_params_type_error (stream_slice : pydict) :
  update_analytics_params stream_slice = Raise TypeError
  <-> exists v, dict_get stream_slice "dateRange" = Some v
                /\ forall d, v <> VDict d.
Proof.
  unfold update_analytics_params, dict_item. split.
  - intros Hrun.
    destruct (dict_get stream_slice "dateRange") as [v|];
      cbn [bind] in Hrun; [|discriminate Hrun].
    exists v. split; [reflexivity|]. intros dr ->.
    cbn [subscript] in Hrun. unfold dict_item in Hrun. flatten_lookups dr Hrun.
    destruct (dict_get stream_slice "fields"); discriminate Hrun.
  - intros (v & -> & Hv).
    destruct v as [| | | | |d]; try reflexivity. now destruct (Hv d).
Qed.

(** The components are read in the order of the dictionary display: the
    error names the first of the six that ["dateRange"] lacks. *)
Theorem update_analytics_params_first_missing
  (stream_slice date_range : pydict) (before after : list string)
  (component : string) :
  dict_get stream_slice "dateRange" = Some (VDict date_range) ->
  DATE_RANGE_COMPONENTS = before ++ component :: after ->
  (forall c, In c before -> dict_get date_range c <> None) ->
  dict_get date_range component = None ->
  update_analytics_params stream_slice = Raise (KeyError component).
Proof.
  intros Hdr Hsplit Hbefore Hmissing.
  unfold update_analytics_params, dict_item. rewrite Hdr.
  cbn [bind subscript]. unfold dict_item.
  unfold DATE_RANGE_COMPONENTS in Hsplit.
  repeat match goal with
         | |- context [dict_get date_range ?key] =>
             let E := fresh "Hcomponent" in
             destruct (dict_get date_range key) eqn:E; cbn [bind]
         end;
    repeat (destruct before as [|? before];
            [ cbn [app] in Hsplit; inversion Hsplit; subst;
              solve [reflexivity | congruence]
            | cbn [app] in Hsplit; injection Hsplit as <- Hsplit;
              try (exfalso;
                   match goal with
                   | E : dict_get date_range ?key = None |- _ =>
                       apply (Hbefore key); [simpl; tauto | exact E]
                   end) ]);
    try (destruct before; discriminate Hsplit).
Qed.

Lemma update_analytics_params_first_missing_witness :
  update_analytics_params
    [("dateRange", VDict [("start.day", VInt 1); ("end.year", VInt 2021)])]
  = Raise (KeyError "start.month").
Proof.
  apply (update_analytics_params_first_missing
           [("dateRange", VDict [("start.day", VInt 1); ("end.year", VInt 2021)])]
           [("start.day", VInt 1); ("end.year", VInt 2021)]
           ["start.day"] ["start.year"; "end.day"; "end.month"; "end.year"]
           "start.month").
  - reflexivity.
  - reflexivity.
  - intros c [<-|[]]. discriminate.
  - reflexivity.
Defined.

(** ** Result merger: success, errors and keys *)

Lemma merge_chunks_raises (h : heap) (chunked_result : list (list loc))
    (merge_by_key : string) :
  (forall l, well_formed (h l)) ->
  forall e,
    merge_chunks h chunked_result merge_by_key = Raise e <->
    exists before l after,
      List.concat chunked_result = before ++ l :: after /\
      Forall (fun l' => exists hk, record_key merge_by_key (h l') = Ok hk)
             before /\
      record_key merge_by_key (h l) = Raise e.
Proof.
  intros Hwf e. unfold merge_chunks. rewrite bind_raises, for_each_concat.
  apply (merge_records_error merge_by_key h).
  cbn [fst snd]. split; [assumption|]. split; [reflexivity|].
  intros hk t Hget. discriminate Hget.
Qed.

Lemma first_unusable_record (k : string) (h : heap) :
  forall locs : list loc,
    (exists l, In l locs /\ forall hk, record_key k (h l) <> Ok hk) ->
    exists before l after e,
      locs = before ++ l :: after /\
      Forall (fun l' => exists hk, record_key k (h l') = Ok hk) before /\
      record_key k (h l) = Raise e.
Proof.
  induction locs as [|x locs IH]; intros (l & Hin & Hl); [contradiction|].
  destruct (record_key k (h x)) as [hk|e] eqn:Hx.
  - destruct IH as (before & l' & after & e & -> & Hok & Hl').
    + exists l. split; [|assumption].
      destruct Hin as [->|Hin]; [|assumption]. now destruct (Hl hk).
    + exists (x :: before), l', after, e.
      split; [reflexivity|]. split; [|assumption].
      constructor; [now exists hk|assumption].
  - exists [], x, locs, e. repeat split; [constructor|assumption].
Qed.

(** The merger returns exactly when every input record has a hashable
    value under the merge key. *)
Theorem merge_chunks_succeeds_iff
  (h : heap) (chunked_result : list (list loc)) (merge_by_key : string) :
  (forall l, well_formed (h l)) ->
  ((exists st, merge_chunks h chunked_result merge_by_key = Ok st)
   <-> forall l, In l (List.concat chunked_result) ->
                 exists hk, record_key merge_by_key (h l) = Ok hk).
Proof.
  intros Hwf. split.
  - intros (st & Hrun) l Hin.
    destruct (record_key merge_by_key (h l)) as [hk|e] eqn:Hl;
      [now exists hk|].
    destruct (first_unusable_record merge_by_key h
                (List.concat chunked_result))
      as (before & l' & after & e' & Heq & Hok & Hl').
    { exists l. split; [assumption|]. intros hk. congruence. }
    assert (Hraise : merge_chunks h chunked_result merge_by_key = Raise e').
    { apply merge_chunks_raises; [assumption|]. now exists before, l', after. }
    congruence.
  - intros Hall.
    destruct (merge_chunks h chunked_result merge_by_key) as [st|e] eqn:Hrun;
      [now exists st|].
    apply merge_chunks_raises in Hrun as (before & l & after & Heq & _ & Hl);
      [|assumption].
    destruct (Hall l) as (hk & Hhk); [|congruence].
    rewrite Heq. apply in_elt.
Qed.

(** The merger raises nothing but [KeyError] on the merge key and
    [TypeError]; it is [TypeError] exactly when the first record without a
    usable key has an unhashable value under the merge key. *)
Theorem merge_chunks_type_error
  (h : heap) (chunked_result : list (list loc)) (merge_by_key : string) :
  (forall l, well_formed (h l)) ->
  (forall e, merge_chunks h chunked_result merge_by_key = Raise e ->
             e = KeyError merge_by_key \/ e = TypeError)
  /\ (merge_chunks h chunked_result merge_by_key = Raise TypeError
      <-> exists before l after v,
            List.concat chunked_result = before ++ l :: after /\
            Forall (fun l' => exists hk,
                                record_key merge_by_key (h l') = Ok hk)
                   before /\
            dict_get (h l) merge_by_key = Some v /\
            hash_key v = Raise TypeError).
Proof.
  intros Hwf. split.
  - intros e Hrun.
    apply merge_chunks_raises in Hrun as (_ & l & _ & _ & _ & Hl);
      [|assumption].
    unfold record_key, dict_item in Hl.
    destruct (dict_get (h l) merge_by_key) as [v|]; cbn [bind] in Hl.
    + right. destruct v; simpl in Hl; congruence.
    + left. congruence.
  - rewrite merge_chunks_raises by assumption. split.
    + intros (before & l & after & Heq & Hok & Hl).
      unfold record_key, dict_item in Hl.
      destruct (dict_get (h l) merge_by_key) as [v|] eqn:Hv;
        cbn [bind] in Hl; [|discriminate Hl].
      now exists before, l, after, v.
    + intros (before & l & after & v & Heq & Hok & Hv & Hhash).
      exists before, l, after. split; [assumption|]. split; [assumption|].
      unfold record_key, dict_item. now rewrite Hv.
Qed.

Lemma merged_get_In (merged : merged_dict) (hk : hkey) (t : loc) :
  merged_get merged hk = Some t -> In (hk, t) merged.
Proof.
  induction merged as [|[hk' l] merged IH]; simpl; [discriminate|].
  destruct (hkey_eqb hk' hk) eqn:Heq.
  - intros Hget. inversion Hget; subst. apply hkey_eqb_eq in Heq. subst.
    now left.
  - intros Hget. right. now apply IH.
Qed.

Lemma merged_get_absent (merged : merged_dict) (hk : hkey) :
  merged_get merged hk = None <-> ~ In hk (map fst merged).
Proof.
  induction merged as [|[hk' l] merged IH]; simpl; [tauto|].
  destruct (hkey_eqb hk' hk) eqn:Heq.
  - apply hkey_eqb_eq in Heq. subst. split; [discriminate|].
    intros H. exfalso. apply H. now left.
  - apply hkey_eqb_neq in Heq. rewrite IH. tauto.
Qed.

Lemma merged_get_filed (merged : merged_dict) (hk : hkey) (t : loc) :
  NoDup (map fst merged) -> In (hk, t) merged -> merged_get merged hk = Some t.
Proof.
  induction merged as [|[hk' l] merged IH]; simpl; intros Hnd Hin;
    [contradiction|].
  inversion Hnd as [|? ? Hnotin Hnd']; subst.
  destruct Hin as [Heq|Hin].
  - inversion Heq; subst. now rewrite hkey_eqb_refl.
  - destruct (hkey_eqb hk' hk) eqn:Heq; [|now apply IH].
    apply hkey_eqb_eq in Heq. subst. exfalso. apply Hnotin.
    apply in_map_iff. now exists (hk, t).
Qed.

(** The keys of [merged] are the keys seen so far, each at its first
    sighting, whether or not a record object occurs twice in the input. *)
Lemma merge_records_keys (k : string) (h0 : heap) :
  (forall l, well_formed (h0 l)) ->
  forall (locs : list loc) (st : heap * merged_dict),
    for_each (merge_record k) locs (@pair heap merged_dict h0 []) = Ok st ->
    keeps_keys k h0 st /\
    map fst (snd st) = first_seen (record_keys k (map h0 locs)).
Proof.
  intros Hwf.
  induction locs as [|x locs IH] using rev_ind; intros st Hrun.
  - simpl in Hrun. inversion Hrun; subst. split; [|reflexivity].
    split; [assumption|]. split; [reflexivity|].
    intros hk t Hget. discriminate Hget.
  - rewrite for_each_app in Hrun.
    destruct (for_each (merge_record k) locs (@pair heap merged_dict h0 []))
      as [[h1 m1]|ex]; [|discriminate].
    destruct (IH (h1, m1) eq_refl) as (Hkept & Hkeys).
    cbn [bind for_each] in Hrun.
    destruct (merge_record k (h1, m1) x) as [st'|ex] eqn:Hstep;
      [|discriminate]. cbn [bind] in Hrun. inversion Hrun; subst st'.
    destruct (record_key k (h0 x)) as [hk|ex] eqn:Hx.
    2:{ pose proof (merge_record_raises k h0 (h1, m1) x ex Hkept Hx).
        congruence. }
    destruct (merge_record_kept k h0 (h1, m1) x hk Hkept Hx)
      as (st' & Hstep' & Hkept').
    rewrite Hstep in Hstep'. inversion Hstep'; subst st'.
    split; [assumption|].
    rewrite map_app, record_keys_app.
    replace (record_keys k (map h0 [x])) with [hk]
      by (unfold record_keys; simpl; now rewrite Hx).
    rewrite first_seen_snoc. cbn [snd] in Hkeys. rewrite <- Hkeys.
    rewrite merge_record_unfold in Hstep.
    destruct Hkept as (_ & Hsame & _). cbn [fst] in Hsame.
    rewrite Hsame, Hx in Hstep. cbn [bind] in Hstep.
    destruct (merged_get m1 hk) as [t|] eqn:Hget.
    + inversion Hstep; subst. cbn [snd].
      apply merged_get_In in Hget.
      assert (Hin : In hk (map fst m1))
        by (apply in_map_iff; now exists (hk, t)).
      apply existsb_hkey in Hin. now rewrite Hin.
    + inversion Hstep; subst. cbn [snd].
      apply merged_get_absent in Hget.
      destruct (existsb (hkey_eqb hk) (map fst m1)) eqn:Hin.
      * apply existsb_hkey in Hin. contradiction.
      * now rewrite map_app.
Qed.

(** The merger returns one record for each distinct key, in the order in
    which the keys are first seen, and each returned record carries its
    key: this holds also when the same record object occurs several times
    in the input. *)
Theorem merge_chunks_one_per_key
  (h h' : heap) (chunked_result : list (list loc)) (merge_by_key : string)
  (out : list loc) :
  (forall l, well_formed (h l)) ->
  merge_chunks h chunked_result merge_by_key = Ok (h', out) ->
  map (fun l => record_key merge_by_key (h' l)) out
  = map (@Ok hkey)
        (first_seen
           (record_keys merge_by_key (map h (List.concat chunked_result)))).
Proof.
  intros Hwf Hrun. unfold merge_chunks in Hrun.
  rewrite for_each_concat in Hrun.
  match type of Hrun with
  | context [for_each ?body ?locs ?st] =>
      destruct (for_each body locs st) as [[h1 m1]|ex] eqn:Hloop
  end; [|discriminate].
  cbn [bind fst snd] in Hrun. inversion Hrun; subst h' out.
  destruct (merge_records_keys merge_by_key h Hwf _ _ Hloop)
    as ((_ & _ & Hfiled) & Hkeys).
  cbn [fst snd] in *. rewrite <- Hkeys, !map_map.
  apply map_ext_in. intros [hk t] Hin. cbn [fst snd].
  apply Hfiled. apply merged_get_filed; [|assumption].
  rewrite Hkeys. apply first_seen_NoDup.
Qed.

Lemma merge_chunks_succeeds_iff_witness :
  exists st,
    merge_chunks
      (fun l => match l with
                | O => [("id", VInt 1); ("a", VInt 10)]
                | _ => [("id", VStr "x")]
                end)
      [ [0%nat]; [1%nat] ] "id" = Ok st.
Proof.
  apply (merge_chunks_succeeds_iff
           (fun l => match l with
                     | O => [("id", VInt 1); ("a", VInt 10)]
                     | _ => [("id", VStr "x")]
                     end)
           [ [0%nat]; [1%nat] ] "id").
  - intros [|l]; unfold well_formed; simpl;
      repeat constructor; simpl; intuition discriminate.
  - simpl. intros l [<-|[<-|[]]]; eexists; reflexivity.
Defined.

Lemma merge_chunks_type_error_witness :
  merge_chunks
    (fun l => match l with
              | O => [("id", VInt 1)]
              | _ => [("id", VList [VInt 1])]
              end)
    [ [0%nat; 1%nat; 2%nat] ] "id" = Raise TypeError.
Proof.
  apply (merge_chunks_type_error
           (fun l => match l with
                     | O => [("id", VInt 1)]
                     | _ => [("id", VList [VInt 1])]
                     end)
           [ [0%nat; 1%nat; 2%nat] ] "id").
  - intros [|l]; unfold well_formed; simpl;
      repeat constructor; simpl; intuition discriminate.
  - exists [0%nat], 1%nat, [2%nat], (VList [VInt 1]).
    repeat split. repeat constructor. now exists (KInt 1).
Defined.

Lemma merge_chunks_one_per_key_witness :
  exists h' out,
    merge_chunks
      (fun l => match l with
                | O => [("id", VInt 1); ("a", VInt 10)]
                | _ => [("id", VInt 2)]
                end)
      [ [0%nat; 1%nat]; [0%nat; 2%nat] ] "id" = Ok (h', out) /\
    map (fun l => record_key "id" (h' l)) out = [Ok (KInt 1); Ok (KInt 2)].
Proof.
  assert (Hrun : exists h' out,
             merge_chunks
               (fun l => match l with
                         | O => [("id", VInt 1); ("a", VInt 10)]
                         | _ => [("id", VInt 2)]
                         end)
               [ [0%nat; 1%nat]; [0%nat; 2%nat] ] "id" = Ok (h', out))
    by (do 2 eexists; reflexivity).
  destruct Hrun as (h' & out & Hrun). exists h', out. split; [exact Hrun|].
  rewrite (merge_chunks_one_per_key _ h' _ "id" out) with (2 := Hrun).
  - reflexivity.
  - intros [|l]; unfold well_formed; simpl;
      repeat constructor; simpl; intuition discriminate.
Defined.

(** ** Result merger: what it writes to *)

Lemma merge_records_confined (k : string) (h0 : heap) :
  forall (locs : list loc) (st st' : heap * merged_dict),
    for_each (merge_record k) locs st = Ok st' ->
    (forall l, ~ In l (map snd (snd st)) -> fst st l = h0 l) ->
    (forall l, ~ In l (map snd (snd st')) -> fst st' l = h0 l) /\
    incl (map snd (snd st')) (map snd (snd st) ++ locs).
Proof.
  induction locs as [|x locs IH]; intros [h m] st' Hrun Hst.
  - simpl in Hrun. inversion Hrun; subst. split; [assumption|].
    rewrite app_nil_r. apply incl_refl.
  - cbn [for_each] in Hrun. rewrite merge_record_unfold in Hrun.
    destruct (record_key k (h x)) as [hk|ex]; [|discriminate].
    cbn [bind] in Hrun. cbn [fst snd] in Hst.
    destruct (merged_get m hk) as [t|] eqn:Hget; cbn [bind] in Hrun.
    + apply merged_get_In in Hget.
      assert (Ht : In t (map snd m))
        by (apply in_map_iff; now exists (hk, t)).
      destruct (IH _ _ Hrun) as (Hsame & Hincl).
      * cbn [fst snd]. intros l Hl. rewrite heap_set_other; [now apply Hst|].
        intros ->. contradiction.
      * split; [assumption|]. cbn [fst snd] in Hincl.
        intros l Hl. apply Hincl in Hl. apply in_app_or in Hl as [Hl|Hl];
          apply in_or_app; [now left|right; now right].
    + destruct (IH _ _ Hrun) as (Hsame & Hincl).
      * cbn [fst snd]. intros l Hl. apply Hst. intros Hin. apply Hl.
        rewrite map_app. apply in_or_app. now left.
      * split; [assumption|]. cbn [fst snd] in Hincl.
        intros l Hl. apply Hincl in Hl. rewrite map_app in Hl.
        apply in_app_or in Hl as [Hl|Hl].
        -- apply in_app_or in Hl as [Hl|[<-|[]]];
             apply in_or_app; [now left|right; now left].
        -- apply in_or_app. right. now right.
Qed.

(** The merger works in place: the records it returns are records of the
    input, and a record it does not return is left as it was.  Only the
    returned records, the first of each key, are written to. *)
Theorem merge_chunks_writes_only_what_it_returns
  (h h' : heap) (chunked_result : list (list loc)) (merge_by_key : string)
  (out : list loc) :
  merge_chunks h chunked_result merge_by_key = Ok (h', out) ->
  incl out (List.concat chunked_result) /\
  forall l, ~ In l out -> h' l = h l.
Proof.
  intros Hrun. unfold merge_chunks in Hrun.
  rewrite for_each_concat in Hrun.
  match type of Hrun with
  | context [for_each ?body ?locs ?st] =>
      destruct (for_each body locs st) as [[h1 m1]|ex] eqn:Hloop
  end; [|discriminate].
  cbn [bind fst snd] in Hrun. inversion Hrun; subst h' out.
  destruct (merge_records_confined merge_by_key h _ _ _ Hloop)
    as (Hsame & Hincl); [reflexivity|].
  split; [exact Hincl|exact Hsame].
Qed.

Lemma merge_chunks_writes_only_what_it_returns_witness :
  exists h' out,
    merge_chunks
      (fun l => match l with
                | O => [("id", VInt 1); ("a", VInt 10)]
                | _ => [("id", VInt 1); ("b", VInt 100)]
                end)
      [ [0%nat]; [1%nat] ] "id" = Ok (h', out) /\
    out = [0%nat] /\
    h' 0%nat = [("id", VInt 1); ("a", VInt 10); ("b", VInt 100)] /\
    h' 1%nat = [("id", VInt 1); ("b", VInt 100)].
Proof.
  assert (Hrun : exists h' out,
             merge_chunks
               (fun l => match l with
                         | O => [("id", VInt 1); ("a", VInt 10)]
                         | _ => [("id", VInt 1); ("b", VInt 100)]
                         end)
               [ [0%nat]; [1%nat] ] "id" = Ok (h', out)
             /\ out = [0%nat]
             /\ h' 0%nat = [("id", VInt 1); ("a", VInt 10); ("b", VInt 100)])
    by (do 2 eexists; repeat split).
  destruct Hrun as (h' & out & Hrun & Hout & Hfirst).
  exists h', out. repeat split; try assumption.
  rewrite (proj2 (merge_chunks_writes_only_what_it_returns _ _ _ _ _ Hrun)).
  - reflexivity.
  - rewrite Hout. intros [Heq|[]]. discriminate Heq.
Defined.

Lemma merge_records_distinct (k : string) (h : heap) :
  forall (locs : list loc) (merged : merged_dict),
    (forall l, In l locs -> exists hk, record_key k (h l) = Ok hk) ->
    NoDup (map fst merged ++ record_keys k (map h locs)) ->
    exists merged',
      for_each (merge_record k) locs (h, merged) = Ok (h, merged') /\
      map snd merged' = map snd merged ++ locs.
Proof.
  induction locs as [|x locs IH]; intros merged Hkeys Hnd.
  - exists merged. split; [reflexivity|]. now rewrite app_nil_r.
  - cbn [for_each]. rewrite merge_record_unfold.
    destruct (Hkeys x (or_introl eq_refl)) as (hk & Hx).
    rewrite Hx. cbn [bind].
    assert (Hsplit : record_keys k (map h (x :: locs))
                     = hk :: record_keys k (map h locs))
      by (unfold record_keys; simpl; now rewrite Hx).
    rewrite Hsplit in Hnd.
    assert (Hnew : merged_get merged hk = None).
    { apply merged_get_absent. intros Hin.
      apply (NoDup_app_disjoint _ _ hk Hnd Hin). now left. }
    rewrite Hnew. cbn [bind].
    destruct (IH (merged ++ [(hk, x)])) as (merged' & Hrun & Hlocs).
    + intros l Hl. apply Hkeys. now right.
    + rewrite map_app. simpl. now rewrite <- app_assoc.
    + exists merged'. split; [exact Hrun|].
      rewrite Hlocs, map_app. simpl. now rewrite <- app_assoc.
Qed.

(** Merging is the identity on records that are already merged: when the
    input records have pairwise distinct keys the merger returns them all,
    in the order of the input, and writes to none. *)
Theorem merge_chunks_distinct_keys
  (h : heap) (chunked_result : list (list loc)) (merge_by_key : string) :
  (forall l, In l (List.concat chunked_result) ->
             exists hk, record_key merge_by_key (h l) = Ok hk) ->
  NoDup (record_keys merge_by_key (map h (List.concat chunked_result))) ->
  merge_chunks h chunked_result merge_by_key
  = Ok (h, List.concat chunked_result).
Proof.
  intros Hkeys Hnd. unfold merge_chunks. rewrite for_each_concat.
  destruct (merge_records_distinct merge_by_key h
              (List.concat chunked_result) [] Hkeys Hnd)
    as (merged' & Hrun & Hlocs).
  simpl in Hlocs.
  replace (for_each (merge_record merge_by_key) (List.concat chunked_result)
             (h, []))
    with (@Ok (heap * merged_dict) (h, merged')) by (symmetry; exact Hrun).
  cbn [bind fst snd]. now rewrite Hlocs.
Qed.

Lemma merge_chunks_distinct_keys_witness :
  merge_chunks
    (fun l => match l with
              | O => [("id", VInt 2); ("a", VInt 10)]
              | _ => [("id", VInt 1); ("b", VInt 100)]
              end)
    [ [0%nat]; [1%nat] ] "id"
  = Ok (fun l => match l with
                 | O => [("id", VInt 2); ("a", VInt 10)]
                 | _ => [("id", VInt 1); ("b", VInt 100)]
                 end,
        [0%nat; 1%nat]).
Proof.
  apply (merge_chunks_distinct_keys
           (fun l => match l with
                     | O => [("id", VInt 2); ("a", VInt 10)]
                     | _ => [("id", VInt 1); ("b", VInt 100)]
                     end)
           [ [0%nat]; [1%nat] ] "id").
  - simpl. intros l [<-|[<-|[]]]; eexists; reflexivity.
  - simpl. repeat constructor; simpl; intuition discriminate.
Defined.

(** ** Result merger: the fields of a merged record *)

Lemma merge_chunks_follows_spec (h : heap) (chunked_result : list (list loc))
    (merge_by_key : string) :
  NoDup (List.concat chunked_result) ->
  (forall l, In l (List.concat chunked_result) ->
             exists hk, record_key merge_by_key (h l) = Ok hk) ->
  exists h' out,
    merge_chunks h chunked_result merge_by_key = Ok (h', out) /\
    map h' out = merge_spec merge_by_key (map h (List.concat chunked_result)).
Proof.
  intros Hnd Hkeys.
  unfold merge_chunks. rewrite for_each_concat.
  set (locs := List.concat chunked_result) in *.
  assert (Hall : Forall (fun r => exists hk, record_key merge_by_key r = Ok hk)
                        (map h locs)).
  { apply Forall_forall. intros r Hr.
    apply in_map_iff in Hr as (l & <- & Hl). now apply Hkeys. }
  pose proof (merge_values_spec merge_by_key (map h locs) Hall) as Hspec.
  destruct (for_each (merge_record merge_by_key) locs (h, []))
    as [[h' merged]|ex] eqn:Hrun.
  2:{ apply merge_records_follow_raise in Hrun; [|assumption]. congruence. }
  apply merge_records_follow_ok in Hrun; [|assumption].
  rewrite Hspec in Hrun. inversion Hrun as [Hview].
  exists h', (map snd merged). split; [reflexivity|].
  unfold merge_spec.
  apply (f_equal (map snd)) in Hview.
  unfold view in Hview. rewrite !map_map in Hview. cbn [snd] in Hview.
  rewrite map_map. symmetry. exact Hview.
Qed.

Lemma merge_chunks_ok_keyed (h : heap) (chunked_result : list (list loc))
    (merge_by_key : string) (st : heap * list loc) :
  (forall l, well_formed (h l)) ->
  merge_chunks h chunked_result merge_by_key = Ok st ->
  forall l, In l (List.concat chunked_result) ->
            exists hk, record_key merge_by_key (h l) = Ok hk.
Proof.
  intros Hwf Hrun l Hin.
  destruct (record_key merge_by_key (h l)) as [hk|e] eqn:Hl; [now exists hk|].
  destruct (first_unusable_record merge_by_key h (List.concat chunked_result))
    as (before & l' & after & e' & Heq & Hok & Hl').
  { exists l. split; [assumption|]. intros hk. congruence. }
  assert (Hraise : merge_chunks h chunked_result merge_by_key = Raise e').
  { apply merge_chunks_raises; [assumption|]. now exists before, l', after. }
  congruence.
Qed.

Lemma dict_get_fold_update (f : string) :
  forall (later : list pydict) (first : pydict),
    Forall well_formed later ->
    dict_get (fold_left dict_update later first) f
    = fold_left
        (fun found d =>
           match dict_get d f with Some v => Some v | None => found end)
        later (dict_get first f).
Proof.
  induction later as [|d later IH]; intros first Hwf; [reflexivity|].
  inversion Hwf as [|? ? Hd Hlater]; subst. cbn [fold_left].
  rewrite IH by assumption. now rewrite dict_get_update.
Qed.

Lemma merged_record_field (k : string) (records : list pydict) (hk : hkey)
    (f : string) :
  Forall well_formed records ->
  dict_get (merged_record k records hk) f
  = last_value f (filter (has_key k hk) records).
Proof.
  intros Hwf. unfold merged_record, last_value.
  assert (Hkept : Forall well_formed (filter (has_key k hk) records)).
  { rewrite Forall_forall in *. intros d Hd. apply filter_In in Hd as (Hd & _).
    now apply Hwf. }
  destruct (filter (has_key k hk) records) as [|first later]; [reflexivity|].
  inversion Hkept as [|? ? _ Hlater]; subst.
  rewrite dict_get_fold_update by assumption. cbn [fold_left].
  now destruct (dict_get first f).
Qed.

(** Field by field, last write wins: in the record returned for a key, a
    field has the value given by the last input record of that key that
    binds the field, and is absent when no record of that key binds it. *)
Theorem merge_chunks_last_write_wins
  (h h' : heap) (chunked_result : list (list loc)) (merge_by_key : string)
  (out : list loc) :
  NoDup (List.concat chunked_result) ->
  (forall l, well_formed (h l)) ->
  merge_chunks h chunked_result merge_by_key = Ok (h', out) ->
  forall f,
    map (fun l => dict_get (h' l) f) out
    = map (fun hk =>
             last_value f
               (filter (has_key merge_by_key hk)
                       (map h (List.concat chunked_result))))
          (first_seen
             (record_keys merge_by_key (map h (List.concat chunked_result)))).
Proof.
  intros Hnd Hwf Hrun f.
  pose proof (merge_chunks_ok_keyed h chunked_result merge_by_key _ Hwf Hrun)
    as Hkeys.
  destruct (merge_chunks_follows_spec h chunked_result merge_by_key Hnd Hkeys)
    as (h1 & out1 & Hrun1 & Hspec).
  rewrite Hrun in Hrun1. inversion Hrun1; subst h1 out1.
  apply (f_equal (map (fun d => dict_get d f))) in Hspec.
  unfold merge_spec in Hspec. rewrite !map_map in Hspec. rewrite Hspec.
  apply map_ext. intros hk. apply merged_record_field.
  apply Forall_forall. intros d Hd.
  apply in_map_iff in Hd as (l & <- & _). apply Hwf.
Qed.

Lemma merge_chunks_last_write_wins_witness :
  exists h' out,
    merge_chunks
      (fun l => match l with
                | O => [("id", VInt 1); ("a", VInt 10)]
                | 1%nat => [("id", VInt 1); ("a", VInt 11); ("b", VInt 100)]
                | _ => [("id", VInt 1); ("b", VInt 101)]
                end)
      [ [0%nat; 1%nat]; [2%nat] ] "id" = Ok (h', out) /\
    map (fun l => dict_get (h' l) "a") out = [Some (VInt 11)] /\
    map (fun l => dict_get (h' l) "b") out = [Some (VInt 101)] /\
    map (fun l => dict_get (h' l) "c") out = [None].
Proof.
  assert (Hrun : exists h' out,
             merge_chunks
               (fun l => match l with
                         | O => [("id", VInt 1); ("a", VInt 10)]
                         | 1%nat => [("id", VInt 1); ("a", VInt 11);
                                     ("b", VInt 100)]
                         | _ => [("id", VInt 1); ("b", VInt 101)]
                         end)
               [ [0%nat; 1%nat]; [2%nat] ] "id" = Ok (h', out))
    by (do 2 eexists; reflexivity).
  destruct Hrun as (h' & out & Hrun). exists h', out. split; [exact Hrun|].
  assert (Hfields := fun Hnd Hwf =>
            merge_chunks_last_write_wins _ h' _ "id" out Hnd Hwf Hrun).
  repeat split; rewrite Hfields; try reflexivity;
    try (simpl; repeat constructor; simpl; intuition discriminate);
    intros [|[|l]]; unfold well_formed; simpl;
      repeat constructor; simpl; intuition discriminate.
Defined.

(** ** Result merger: responses made of fresh records *)

Lemma load_chunk_locs :
  forall (chunk : list pydict) (next : loc) (h : heap),
    snd (load_chunk next chunk h) = seq next (List.length chunk).
Proof.
  induction chunk as [|d chunk IH]; intros next h; [reflexivity|].
  cbn [load_chunk snd List.length seq]. now rewrite IH.
Qed.

Lemma load_chunk_below :
  forall (chunk : list pydict) (next : loc) (h : heap) (l : loc),
    (l < next)%nat -> fst (load_chunk next chunk h) l = h l.
Proof.
  induction chunk as [|d chunk IH]; intros next h l Hl; [reflexivity|].
  cbn [load_chunk fst]. rewrite IH by lia. apply heap_set_other. lia.
Qed.

Lemma load_chunk_reads :
  forall (chunk : list pydict) (next : loc) (h : heap),
    map (fst (load_chunk next chunk h)) (seq next (List.length chunk)) = chunk.
Proof.
  induction chunk as [|d chunk IH]; intros next h; [reflexivity|].
  cbn [load_chunk fst List.length seq map]. f_equal.
  - rewrite load_chunk_below by lia. apply heap_set_same.
  - apply IH.
Qed.

Lemma load_below :
  forall (chunks : list (list pydict)) (next : loc) (h : heap) (l : loc),
    (l < next)%nat -> fst (load next chunks h) l = h l.
Proof.
  induction chunks as [|chunk chunks IH]; intros next h l Hl; [reflexivity|].
  cbn [load fst]. rewrite IH by lia. now apply load_chunk_below.
Qed.

Lemma load_locs :
  forall (chunks : list (list pydict)) (next : loc) (h : heap),
    List.concat (snd (load next chunks h))
    = seq next (List.length (List.concat chunks)).
Proof.
  induction chunks as [|chunk chunks IH]; intros next h; [reflexivity|].
  cbn [load snd List.concat].
  rewrite length_app, seq_app, IH, load_chunk_locs. reflexivity.
Qed.

Lemma load_reads :
  forall (chunks : list (list pydict)) (next : loc) (h : heap),
    map (fst (load next chunks h))
        (seq next (List.length (List.concat chunks)))
    = List.concat chunks.
Proof.
  induction chunks as [|chunk chunks IH]; intros next h; [reflexivity|].
  cbn [load fst List.concat].
  rewrite length_app, seq_app, map_app, IH. f_equal.
  transitivity (map (fst (load_chunk next chunk h))
                    (seq next (List.length chunk)));
    [|apply load_chunk_reads].
  apply map_ext_in. intros l Hl. apply in_seq in Hl.
  apply load_below. lia.
Qed.

(** On a response whose records are all fresh objects the merger computes
    the merge of the specification: one record for each distinct key, in
    the order of first sighting, the first record of the key updated with
    the later ones. *)
Theorem merge_chunks_fresh_spec
  (chunked_result : list (list pydict)) (merge_by_key : string) :
  Forall (fun d => exists hk, record_key merge_by_key d = Ok hk)
         (List.concat chunked_result) ->
  merge_chunks_fresh chunked_result merge_by_key
  = Ok (merge_spec merge_by_key (List.concat chunked_result)).
Proof.
  intros Hkeys. unfold merge_chunks_fresh.
  set (input := load O chunked_result (fun _ => [])).
  assert (Hlocs : List.concat (snd input)
                  = seq O (List.length (List.concat chunked_result)))
    by apply load_locs.
  assert (Hreads : map (fst input) (List.concat (snd input))
                   = List.concat chunked_result)
    by (rewrite Hlocs; apply load_reads).
  destruct (merge_chunks_follows_spec (fst input) (snd input) merge_by_key)
    as (h' & out & Hrun & Hspec).
  - rewrite Hlocs. apply seq_NoDup.
  - intros l Hl. rewrite Forall_forall in Hkeys. apply Hkeys.
    rewrite <- Hreads. now apply in_map.
  - cbv zeta. rewrite Hrun. cbn [bind fst snd]. now rewrite Hspec, Hreads.
Qed.

Lemma merge_chunks_fresh_spec_witness :
  merge_chunks_fresh
    [ [ [("id", VStr "x"); ("a", VInt 1)]; [("id", VStr "y")] ];
      [ [("id", VStr "x"); ("a", VInt 2)] ] ] "id"
  = Ok [ [("id", VStr "x"); ("a", VInt 2)]; [("id", VStr "y")] ].
Proof.
  rewrite (merge_chunks_fresh_spec
             [ [ [("id", VStr "x"); ("a", VInt 1)]; [("id", VStr "y")] ];
               [ [("id", VStr "x"); ("a", VInt 2)] ] ] "id").
  - reflexivity.
  - simpl. repeat constructor; eexists; reflexivity.
Defined.

(** ** Result merger: merging twice *)

Lemma record_keys_of_keys (k : string) :
  forall (records : list pydict) (keys : list hkey),
    map (record_key k) records = map (@Ok hkey) keys ->
    record_keys k records = keys.
Proof.
  induction records as [|d records IH]; intros [|hk keys] Heq;
    try discriminate; [reflexivity|].
  simpl in Heq. inversion Heq as [[Hd Hrest]].
  unfold record_keys. simpl. rewrite Hd. simpl. f_equal.
  now apply IH.
Qed.

(** Merging is idempotent: the records the merger returns, given to it
    again as one chunk, come back as they are, in the same order and with
    the heap untouched. *)
Theorem merge_chunks_idempotent
  (h h' : heap) (chunked_result : list (list loc)) (merge_by_key : string)
  (out : list loc) :
  (forall l, well_formed (h l)) ->
  merge_chunks h chunked_result merge_by_key = Ok (h', out) ->
  merge_chunks h' [out] merge_by_key = Ok (h', out).
Proof.
  intros Hwf Hrun.
  assert (Hkeys : map (fun l => record_key merge_by_key (h' l)) out
                  = map (@Ok hkey)
                        (first_seen
                           (record_keys merge_by_key
                              (map h (List.concat chunked_result))))).
  { unfold merge_chunks in Hrun. rewrite for_each_concat in Hrun.
    match type of Hrun with
    | context [for_each ?body ?locs ?st] =>
        destruct (for_each body locs st) as [[h1 m1]|ex] eqn:Hloop
    end; [|discriminate].
    cbn [bind fst snd] in Hrun. inversion Hrun; subst h' out.
    destruct (merge_records_keys merge_by_key h Hwf _ _ Hloop)
      as ((_ & _ & Hfiled) & Hkeys).
    cbn [fst snd] in *. rewrite <- Hkeys, !map_map.
    apply map_ext_in. intros [hk t] Hin. cbn [fst snd].
    apply Hfiled. apply merged_get_filed; [|assumption].
    rewrite Hkeys. apply first_seen_NoDup. }
  destruct (merge_records_distinct merge_by_key h' out [])
    as (merged' & Hagain & Hlocs).
  - intros l Hl.
    apply (in_map (fun l => record_key merge_by_key (h' l))) in Hl.
    rewrite Hkeys in Hl. apply in_map_iff in Hl as (hk & Hhk & _).
    now exists hk.
  - cbn [map app].
    rewrite (record_keys_of_keys merge_by_key (map h' out)
               (first_seen
                  (record_keys merge_by_key
                     (map h (List.concat chunked_result)))))
      by (now rewrite map_map).
    apply first_seen_NoDup.
  - unfold merge_chunks. cbn [for_each].
    replace (for_each (merge_record merge_by_key) out (h', []))
      with (@Ok (heap * merged_dict) (h', merged'))
      by (symmetry; exact Hagain).
    cbn [bind fst snd]. simpl in Hlocs. now rewrite Hlocs.
Qed.

Lemma merge_chunks_idempotent_witness :
  exists h' out,
    merge_chunks
      (fun l => match l with
                | O => [("id", VInt 1); ("a", VInt 10)]
                | 1%nat => [("id", VInt 2)]
                | _ => [("id", VInt 1); ("b", VInt 100)]
                end)
      [ [0%nat; 1%nat]; [2%nat] ] "id" = Ok (h', out) /\
    out = [0%nat; 1%nat] /\
    merge_chunks h' [out] "id" = Ok (h', out).
Proof.
  assert (Hrun : exists h' out,
             merge_chunks
               (fun l => match l with
                         | O => [("id", VInt 1); ("a", VInt 10)]
                         | 1%nat => [("id", VInt 2)]
                         | _ => [("id", VInt 1); ("b", VInt 100)]
                         end)
               [ [0%nat; 1%nat]; [2%nat] ] "id" = Ok (h', out)
             /\ out = [0%nat; 1%nat])
    by (do 2 eexists; split; reflexivity).
  destruct Hrun as (h' & out & Hrun & Hout).
  exists h', out. split; [exact Hrun|]. split; [exact Hout|].
  apply (merge_chunks_idempotent _ h' _ "id" out) with (2 := Hrun).
  intros [|[|l]]; unfold well_formed; simpl;
    repeat constructor; simpl; intuition discriminate.
Defined.

(** ** Date windower: a later end date *)

Lemma window_count_monotone (start end1 end2 : DateTime) (w : Z) :
  0 < w ->
  instant end1 <= instant end2 ->
  (window_count start end1 w <= window_count start end2 w)%nat.
Proof.
  intros Hw Hle. pose proof MICROS_PER_DAY_pos as HD.
  destruct (Z.lt_ge_cases (instant start) (instant end1)) as [Hlt|Hge].
  - destruct (window_count_bracket start end1 w Hw Hlt) as (_ & Hlo1 & _).
    destruct (window_count_bracket start end2 w Hw ltac:(lia))
      as (_ & _ & Hhi2).
    assert (HW : 0 < w * MICROS_PER_DAY) by nia.
    apply Nat2Z.inj_le. nia.
  - unfold window_count at 1.
    destruct (Z.ltb_spec (instant start) (instant end1)); lia.
Qed.

Lemma firstn_seq_le :
  forall (n m s : nat), (n <= m)%nat -> firstn n (seq s m) = seq s n.
Proof.
  induction n as [|n IH]; intros [|m] s Hle; try reflexivity; [lia|].
  cbn [seq firstn]. f_equal. apply IH. lia.
Qed.

(** The windows do not depend on the end date beyond their number: for a
    window of at least one day, and as long as the windows for the later of
    two end dates stay within the years 1 to 9999, the function returns for
    the later end date the windows it returns for the earlier one, followed
    by further ones. *)
Theorem make_date_slices_later_end
  (parse : string -> result DateTime) (now : DateTime)
  (start_date : string) (window_in_days : Z) (end_date1 end_date2 : option string)
  (start end1 end2 : DateTime) :
  parse start_date = Ok start ->
  parse_end parse now end_date1 = Ok end1 ->
  parse_end parse now end_date2 = Ok end2 ->
  instant end1 <= instant end2 ->
  0 < window_in_days ->
  1 <= ordinal start ->
  ordinal start
    + Z.of_nat (window_count start end2 window_in_days) * window_in_days
    <= MAXORDINAL ->
  forall fuel, (window_count start end2 window_in_days < fuel)%nat ->
    exists windows1 windows2,
      make_date_slices parse now fuel start_date window_in_days end_date1
      = Some (Ok windows1) /\
      make_date_slices parse now fuel start_date window_in_days end_date2
      = Some (Ok windows2) /\
      windows1 = firstn (List.length windows1) windows2.
Proof.
  intros Hstart Hend1 Hend2 Hle Hw Hlo Hhi fuel Hfuel.
  pose proof (window_count_monotone start end1 end2 window_in_days Hw Hle)
    as Hmono.
  set (n1 := window_count start end1 window_in_days) in *.
  set (n2 := window_count start end2 window_in_days) in *.
  exists (map (window_at start window_in_days) (seq 0 n1)),
         (map (window_at start window_in_days) (seq 0 n2)).
  unfold make_date_slices. rewrite Hstart, Hend1, Hend2.
  split; [|split].
  - apply (date_slices_loop_windows end1 window_in_days Hw n1 start []);
      try reflexivity; try lia. nia.
  - apply (date_slices_loop_windows end2 window_in_days Hw n2 start []);
      try reflexivity; try lia.
  - rewrite length_map, length_seq, firstn_map.
    now rewrite firstn_seq_le by assumption.
Qed.

Lemma make_date_slices_later_end_witness :
  exists windows1 windows2,
    make_date_slices parse_calendar_date (mkDateTime 1 0 0) 4
      "2021-01-01" 30 (Some "2021-02-15") = Some (Ok windows1) /\
    make_date_slices parse_calendar_date (mkDateTime 1 0 0) 4
      "2021-01-01" 30 (Some "2021-03-15") = Some (Ok windows2) /\
    windows1 = firstn (List.length windows1) windows2.
Proof.
  apply (make_date_slices_later_end parse_calendar_date (mkDateTime 1 0 0)
           "2021-01-01" 30 (Some "2021-02-15") (Some "2021-03-15")
           (mkDateTime 737791 0 0) (mkDateTime 737836 0 0)
           (mkDateTime 737864 0 0)).
  - reflexivity.
  - reflexivity.
  - reflexivity.
  - vm_compute. discriminate.
  - reflexivity.
  - vm_compute. discriminate.
  - vm_compute. discriminate.
  - vm_compute. lia.
Defined.
